(** * fast-cf-pages-upload-action: the asset synchronisation engine

    A shallow embedding of [upload.ts] (scanner, hasher, request helper,
    bucket packer, batch uploader, deployment submitter) and the
    properties the specification states about it.

    Conventions.
    - A JavaScript [number] that holds a byte count or an array index is an
      integer far below 2^53, where double arithmetic is exact: sizes are
      [Z], indices and lengths are [nat].
    - A JavaScript string is a [string]; a [Buffer] is a [list byte].
    - An [async] function is a computation in the monad [M]: it threads the
      state of the outside world and either returns or throws. *)

From Stdlib Require Import ZArith NArith Lia List Ascii String Permutation.
From Stdlib.Strings Require Import Byte.
From stdpp Require Import base numbers option list sorting strings pretty gmap.

Local Open Scope string_scope.
Local Open Scope list_scope.
Local Open Scope Z_scope.

(** ** Data model *)

(** [interface UploadableFile]. *)
Module UploadableFile.
Record t : Type := mk {
  absolutePath : string;
  size : Z;
  mime : string;
  hash : string;
  publicUrl : string
}.
End UploadableFile.

(** The accumulator element of the packing [reduce]:
    [{ files: UploadableFile[], size: number }]. *)
Module Bucket.
Record t : Type := mk {
  files : list UploadableFile.t;
  size : Z
}.
End Bucket.

(** ** Bucket packer (the [reduce] of [upload]) *)

Module Packer.

(** [() => ({ files: [], size: 0 })] and [bucket = { size: 0, files: [] }]. *)
Definition emptyBucket : Bucket.t := Bucket.mk [] 0.

(** [Array(3).fill(null).map(() => ({ files: [], size: 0 }))]: three
    distinct objects, so the list holds them by value. *)
Definition initialBuckets : list Bucket.t := replicate 3 emptyBucket.

(** The test inside [find]:
    [(bucket.size + file.size) <= 50 * 1024 * 1024 && bucket.files.length <= 5000]. *)
Definition accepts (file : UploadableFile.t) (bucket : Bucket.t) : bool :=
  (Bucket.size bucket + UploadableFile.size file <=? 50 * 1024 * 1024)
  && (Z.of_nat (length (Bucket.files bucket)) <=? 5000).

(** [bucket.files.push(file); bucket.size += file.size]. *)
Definition addFile (file : UploadableFile.t) (bucket : Bucket.t) : Bucket.t :=
  Bucket.mk (Bucket.files bucket ++ [file])
            (Bucket.size bucket + UploadableFile.size file).

(** [Array(buckets.length).fill(0).map((_, j) => j).find((_, j) => ...)]:
    the first offset [j] whose bucket [(i + j) % buckets.length] accepts the
    file, [None] for JavaScript's [undefined].  The index is always in range,
    so the [None] branch of the lookup is never taken. *)
Definition findOffset (buckets : list Bucket.t) (file : UploadableFile.t)
    (i : nat) : option nat :=
  List.find
    (fun j => match buckets !! ((i + j) mod length buckets)%nat with
              | Some bucket => accepts file bucket
              | None => false
              end)
    (seq 0 (length buckets)).

(** One call of the reducer.  [undefined + i] is [NaN] and [buckets[NaN]] is
    [undefined], so a failed search reaches [if (!bucket)] and pushes a fresh
    bucket; a found bucket is mutated in place. *)
Definition packStep (buckets : list Bucket.t) (file : UploadableFile.t)
    (i : nat) : list Bucket.t :=
  match findOffset buckets file i with
  | Some j => alter (addFile file) ((j + i) mod length buckets)%nat buckets
  | None => buckets ++ [addFile file emptyBucket]
  end.

(** [filesToUpload.reduce((buckets, file, i) => ..., init)] from index [i]. *)
Fixpoint reduceFrom (i : nat) (buckets : list Bucket.t)
    (files : list UploadableFile.t) : list Bucket.t :=
  match files with
  | [] => buckets
  | file :: rest => reduceFrom (S i) (packStep buckets file i) rest
  end.

Definition uploadBuckets (filesToUpload : list UploadableFile.t) : list Bucket.t :=
  reduceFrom 0 initialBuckets filesToUpload.

(** Every value the accumulator takes, the initial one first. *)
Fixpoint statesFrom (i : nat) (buckets : list Bucket.t)
    (files : list UploadableFile.t) : list (list Bucket.t) :=
  buckets ::
  match files with
  | [] => []
  | file :: rest => statesFrom (S i) (packStep buckets file i) rest
  end.

Definition packingStates (filesToUpload : list UploadableFile.t)
    : list (list Bucket.t) :=
  statesFrom 0 initialBuckets filesToUpload.

(** [sum(file.size for file in bucket)]. *)
Definition totalSize (files : list UploadableFile.t) : Z :=
  foldr (fun f acc => UploadableFile.size f + acc) 0 files.

End Packer.

(** ** Library functions with a fixed meaning *)

Module Encoding.

Definition hexDigit (n : N) : ascii :=
  match n with
  | 0 => "0" | 1 => "1" | 2 => "2" | 3 => "3" | 4 => "4" | 5 => "5"
  | 6 => "6" | 7 => "7" | 8 => "8" | 9 => "9" | 10 => "a" | 11 => "b"
  | 12 => "c" | 13 => "d" | 14 => "e" | _ => "f"
  end%N%char.

(** [Buffer.prototype.toString("hex")]: two lower-case digits per byte. *)
Fixpoint hex (bytes : list byte) : string :=
  match bytes with
  | [] => EmptyString
  | b :: rest =>
      let n := Byte.to_N b in
      String (hexDigit (N.shiftr n 4)) (String (hexDigit (N.land n 15)) (hex rest))
  end.

(** The base64 alphabet of RFC 4648. *)
Definition base64Digit (n : N) : ascii :=
  if (n <? 26)%N then ascii_of_N (65 + n)
  else if (n <? 52)%N then ascii_of_N (97 + (n - 26))
  else if (n <? 62)%N then ascii_of_N (48 + (n - 52))
  else if (n =? 62)%N then "+"%char else "/"%char.

(** [Buffer.prototype.toString("base64")]: three bytes give four digits, the
    last group is padded with [=]. *)
Fixpoint base64 (bytes : list byte) : string :=
  match bytes with
  | [] => EmptyString
  | [a] =>
      let n := N.shiftl (Byte.to_N a) 16 in
      String (base64Digit (N.shiftr n 18))
        (String (base64Digit (N.land (N.shiftr n 12) 63)) "==")
  | [a; b] =>
      let n := N.lor (N.shiftl (Byte.to_N a) 16) (N.shiftl (Byte.to_N b) 8) in
      String (base64Digit (N.shiftr n 18))
        (String (base64Digit (N.land (N.shiftr n 12) 63))
          (String (base64Digit (N.land (N.shiftr n 6) 63)) "="))
  | a :: b :: c :: rest =>
      let n := N.lor (N.lor (N.shiftl (Byte.to_N a) 16) (N.shiftl (Byte.to_N b) 8))
                     (Byte.to_N c) in
      String (base64Digit (N.shiftr n 18))
        (String (base64Digit (N.land (N.shiftr n 12) 63))
          (String (base64Digit (N.land (N.shiftr n 6) 63))
            (String (base64Digit (N.land n 63)) (base64 rest))))
  end.

(** The value of a hexadecimal digit and the byte two digits spell: the
    inverse of [hex] on one byte. *)
Definition hexValue (c : ascii) : N :=
  let n := N_of_ascii c in
  if (n <? 58)%N then (n - 48)%N else (n - 87)%N.

Definition unhexByte (high low : ascii) : option byte :=
  Byte.of_N (16 * hexValue high + hexValue low).

(** [s.slice(1)]. *)
Definition slice1 (s : string) : string :=
  match s with
  | EmptyString => EmptyString
  | String _ rest => rest
  end.

(** [s.split(sep).join(glue)] for a one-character separator: every
    occurrence of [sep] is replaced by [glue]. *)
Fixpoint splitJoin (sep : ascii) (glue : string) (s : string) : string :=
  match s with
  | EmptyString => EmptyString
  | String c rest =>
      if Ascii.eqb c sep then glue +:+ splitJoin sep glue rest
      else String c (splitJoin sep glue rest)
  end.

End Encoding.

(** ** The platform: file system, path library, hashing, HTTP *)

(** What a rejected promise or a [throw] carries. *)
Inductive Exception : Type :=
  | ApiError (message : string)   (* [new Error(...)] thrown by [cfApiRequest] *)
  | SystemError (code : string)   (* a rejected [fs] promise: ENOENT, EACCES, EISDIR, ... *)
  | NetworkError                  (* [fetch] rejects *)
  | InvalidJson                   (* [response.json()] rejects: the body is not JSON *)
  | TypeError.                    (* a property of [undefined] or [null] is read, a value
                                     that is no function is called, or an object has
                                     no string conversion *)

Inductive Outcome (A : Type) : Type :=
  | Returned (a : A)
  | Thrown (e : Exception).
Arguments Returned {A} a.
Arguments Thrown {A} e.

#[export] Instance Outcome_ret : MRet Outcome := fun A a => Returned a.
#[export] Instance Outcome_bind : MBind Outcome := fun A B k c =>
  match c with
  | Returned a => k a
  | Thrown e => Thrown e
  end.

(** ** JavaScript values

    [response.json()] resolves to a value built by [JSON.parse], and reading
    a property that is not there gives [undefined].  The type parameter of
    [cfApiRequest<Result>] and the [as] of line 70 are erased when the
    program runs, so the result of a request is any such value. *)

#[local] Set Warnings "-register-all".
Inductive JsValue : Type :=
  | JsUndefined
  | JsNull
  | JsBoolean (b : bool)
  | JsNumber (text : string)     (* a number, by the text [String(n)] *)
  | JsString (s : string)
  | JsArray (elements : list JsValue)
  | JsObject (properties : list (string * JsValue)).
                                 (* the own properties; [JSON.parse] leaves one per key *)

Module Js.

(** The own property [name] of an object. *)
Fixpoint own (name : string) (properties : list (string * JsValue))
    : option JsValue :=
  match properties with
  | [] => None
  | (key, value) :: rest =>
      if String.eqb key name then Some value else own name rest
  end.

(** [value.name] for a name that no prototype defines ([result] and [jwt]
    are such names): [None] is the [TypeError] of reading a property of
    [undefined] or [null]; a missing property is [undefined]. *)
Definition get (value : JsValue) (name : string) : option JsValue :=
  match value with
  | JsUndefined | JsNull => None
  | JsObject properties => Some (default JsUndefined (own name properties))
  | _ => Some JsUndefined
  end.

(** The string conversion of a template literal.  An array is joined
    with commas, an element [null] or [undefined] giving the empty string.
    An object is [[object Object]], unless an own property [toString], which
    in a value of JSON is no function, hides [Object.prototype.toString]:
    then the conversion throws a [TypeError], here [None]. *)
Fixpoint toText (value : JsValue) : option string :=
  match value with
  | JsUndefined => Some "undefined"
  | JsNull => Some "null"
  | JsBoolean b => Some (if b then "true" else "false")
  | JsNumber text => Some text
  | JsString s => Some s
  | JsArray elements =>
      (fix joined (l : list JsValue) : option string :=
         match l with
         | [] => Some ""
         | element :: rest =>
             match match element with
                   | JsUndefined | JsNull => Some ""
                   | _ => toText element
                   end with
             | None => None
             | Some first =>
                 match rest with
                 | [] => Some first
                 | _ :: _ =>
                     match joined rest with
                     | None => None
                     | Some others => Some (first +:+ "," +:+ others)
                     end
                 end
             end
         end) elements
  | JsObject properties =>
      match own "toString" properties with
      | None => Some "[object Object]"
      | Some _ => None
      end
  end.

(** The strings a string starts with, and the strings it contains. *)
Fixpoint prefixes (s : string) : list string :=
  "" :: match s with
        | EmptyString => []
        | String c rest => map (String c) (prefixes rest)
        end.

Fixpoint substrings (s : string) : list string :=
  prefixes s ++ match s with
                | EmptyString => []
                | String _ rest => substrings rest
                end.

(** The [s] of an element that is the string [s]. *)
Definition stringOf (element : JsValue) : option string :=
  match element with
  | JsString s => Some s
  | _ => None
  end.

(** The strings [h] for which [value.includes(h)] is [true]; [None] when the
    call throws a [TypeError].  [Array.prototype.includes] compares by
    SameValueZero, so it finds [h] exactly when an element is the string
    [h]; [String.prototype.includes] looks for a substring; no other value of
    JSON has a method [includes]. *)
Definition included (value : JsValue) : option (list string) :=
  match value with
  | JsArray elements => Some (omap stringOf elements)
  | JsString s => Some (substrings s)
  | _ => None
  end.

End Js.

(** A [fs.Dirent] of [readdir(..., { withFileTypes: true })]. *)
Module Dirent.
Record t : Type := mk { name : string; path : string; isFile : bool }.
End Dirent.

(** [UploadFileGroupPayload], with [metadata.contentType] flattened. *)
Module UploadFileGroupPayload.
Record t : Type := mk {
  key : string;
  value : string;
  contentType : string;
  base64 : bool
}.
End UploadFileGroupPayload.

(** A value appended to a [FormData]: a string, the string
    [JSON.stringify(obj)] of a string-valued object (kept as the object), or
    [new File([contents], filename)]. *)
Inductive FormValue : Type :=
  | FormString (s : string)
  | FormJson (obj : gmap string string)
  | FormFile (contents : string) (filename : string).

Definition FormData : Type := list (string * FormValue).

(** The [body?: any] argument of [cfApiRequest], by the shapes [upload]
    passes. *)
Inductive BodyArg : Type :=
  | Undefined
  | HashesObject (hashes : list string)                      (* [{ hashes }] *)
  | PayloadArray (payload : list UploadFileGroupPayload.t)
  | FormDataObject (formData : FormData).

(** The [body] handed to [fetch]. *)
Inductive FetchBody : Type :=
  | NoBody                           (* [JSON.stringify(undefined)] is [undefined] *)
  | JsonBody (stringified : BodyArg) (* [JSON.stringify(body)], kept as the value *)
  | MultipartBody (formData : FormData).

Module Request.
Record t : Type := mk {
  url : string;
  method : string;
  headers : list (string * string);
  body : FetchBody
}.
End Request.

Module Response.
Record t : Type := mk { status : Z; text : string }.
(** [response.ok]: the status is in the range 200-299. *)
Definition ok (r : t) : bool := (200 <=? status r) && (status r <=? 299).
End Response.

(** Everything [upload.ts] imports or finds in its environment.  The file
    system is read only and does not change during a run; the remote store
    is a state [World] that each [fetch] may change. *)
Class Platform : Type := {
  World : Type;
  (** [declare global { const FCFP_VERSION: string }] *)
  FCFP_VERSION : string;
  (** [fs/promises]: [readdir(dir, { recursive: true, withFileTypes: true })],
      [(await stat(p)).size], [readFile(p)] *)
  readdir : string -> Outcome (list Dirent.t);
  stat : string -> Outcome Z;
  readFile : string -> Outcome (list byte);
  (** [readFile(p, "utf8")] is [readFile(p)] followed by
      [buffer.toString("utf8")]: the text the bytes spell, each ill-formed
      sequence replaced by U+FFFD *)
  utf8 : list byte -> string;
  (** [path]: [resolve(...segments)], [relative(from, to)], [join(a, b)],
      [sep], [extname(p)] *)
  resolve : list string -> string;
  relative : string -> string -> string;
  join : string -> string -> string;
  sep : ascii;
  extname : string -> string;
  (** [blake3(data, { dkLen })] of [@noble/hashes] *)
  blake3 : string -> nat -> list byte;
  (** [lookup] of [mime-types]: [None] for [false] *)
  mimeLookup : string -> option string;
  (** [fetch(url, init)] *)
  fetch : Request.t -> World -> Outcome Response.t * World;
  (** [response.json()] on a body with this text: [None] when the promise
      rejects *)
  parseJson : string -> option JsValue
}.

(** ** [upload.ts] *)

Module Upload.
Section WithPlatform.
Context {P : Platform}.

(** The state a run threads: the remote store and the requests sent so far. *)
Record State : Type := mkState { remote : World; sent : list Request.t }.

(** An [async] function that talks to the remote store. *)
Definition M (A : Type) : Type := State -> Outcome A * State.

#[export] Instance M_ret : MRet M := fun A a s => (Returned a, s).
#[export] Instance M_bind : MBind M := fun A B k c s =>
  match c s with
  | (Returned a, s') => k a s'
  | (Thrown e, s') => (Thrown e, s')
  end.

Definition throw {A} (e : Exception) : M A := fun s => (Thrown e, s).

(** A step that sends nothing: [await] of a file-system promise, or the
    evaluation of an expression that may throw. *)
Definition await {A} (c : Outcome A) : M A := fun s => (c, s).

(** [await Promise.all(items.map(async item => ...))].  [map] starts every
    callback, and a rejection of one promise cancels none of the others: each
    callback runs to its end, whatever the others do, and the state after the
    call is the one reached when all of them have ended.  The callbacks are
    taken in array order; the result is the list of their results, or, when
    some of them throw, the exception of the first of these in array
    order. *)
Fixpoint forEach {A B} (f : A -> M B) (items : list A) : M (list B) :=
  match items with
  | [] => mret []
  | item :: rest => fun s =>
      let '(first, s1) := f item s in
      let '(others, s2) := forEach f rest s1 in
      (match first, others with
       | Returned b, Returned bs => Returned (b :: bs)
       | Thrown e, _ => Thrown e
       | Returned _, Thrown e => Thrown e
       end, s2)
  end.

Definition userAgent : string := "fast-pages-upload/" +:+ FCFP_VERSION.

Definition ignoredFiles : gset string :=
  {[ "_worker.js"; "_redirects"; "_headers"; "_routes.json" ]}.

Definition cfBaseUrl : string := "https://api.cloudflare.com/client/v4".

(** The hashed material and the fingerprint of a file (lines 42-44). *)
Definition hashData (contents : list byte) (absolutePath : string) : string :=
  Encoding.base64 contents +:+ Encoding.slice1 (extname absolutePath).

Definition fingerprint (contents : list byte) (absolutePath : string) : string :=
  Encoding.hex (blake3 (hashData contents absolutePath) 16).

(** [mimeLookup(absolutePath) || "application/octet-stream"]. *)
Definition mimeOf (absolutePath : string) : string :=
  match mimeLookup absolutePath with
  | Some EmptyString | None => "application/octet-stream"
  | Some m => m
  end.

(** The body of [files.map(async file => ...)]. *)
Definition describe (resolvedDir : string) (file : Dirent.t)
    : Outcome UploadableFile.t :=
  let absolutePath := resolve [resolvedDir; Dirent.path file; Dirent.name file] in
  let publicUrl :=
    "/" +:+ Encoding.splitJoin sep "/" (relative resolvedDir absolutePath) in
  size ← stat absolutePath;
  contents ← readFile absolutePath;
  mret (UploadableFile.mk absolutePath size (mimeOf absolutePath)
          (fingerprint contents absolutePath) publicUrl).

(** The entries that pass both filters of line 34. *)
Definition uploadable (entry : Dirent.t) : bool :=
  Dirent.isFile entry && negb (bool_decide (Dirent.name entry ∈ ignoredFiles)).

Definition findUploadableFiles (dir : string) : Outcome (list UploadableFile.t) :=
  let resolvedDir := resolve [dir] in
  dirEntries ← readdir resolvedDir;
  let files := List.filter uploadable dirEntries in
  mapM (describe resolvedDir) files.

(** [body instanceof FormData ? body : JSON.stringify(body)]. *)
Definition fetchBody (body : BodyArg) : FetchBody :=
  match body with
  | FormDataObject formData => MultipartBody formData
  | Undefined => NoBody
  | other => JsonBody other
  end.

(** [await fetch(...)], recording the request. *)
Definition doFetch (request : Request.t) : M Response.t := fun s =>
  let '(response, remote') := fetch request (remote s) in
  (response, mkState remote' (sent s ++ [request])).

Definition failureMessage (response : Response.t) : string :=
  "Cloudflare API request failed with status " +:+ pretty (Response.status response)
  +:+ ": " +:+ Response.text response.

(** The arguments of the [fetch] call of [cfApiRequest]. *)
Definition requestFor (method url token : string) (body : BodyArg) : Request.t :=
  Request.mk (cfBaseUrl +:+ url) method
    [("User-Agent", userAgent); ("Authorization", "Bearer " +:+ token)]
    (fetchBody body).

(** Lines 70-72: [(await response.json()).result].  Nothing checks the shape
    of the body: [result] is returned as it is found, [undefined] when the
    body has no such property.  Only a body that is not JSON, or the value
    [null], makes the two lines throw. *)
Definition jsonResult (response : Response.t) : Outcome JsValue :=
  match parseJson (Response.text response) with
  | None => Thrown InvalidJson
  | Some json =>
      match Js.get json "result" with
      | Some result => Returned result
      | None => Thrown TypeError
      end
  end.

Definition cfApiRequest (method url token : string) (body : BodyArg) : M JsValue :=
  response ← doFetch (requestFor method url token body);
  if negb (Response.ok response) then throw (ApiError (failureMessage response))
  else await (jsonResult response).

(** The types [Project] and [Deployment] of [@cloudflare/types] name what
    the caller expects; at run time they are any value. *)
Definition Project : Type := JsValue.
Definition Deployment : Type := JsValue.

Definition projectUrl (accountId projectName : string) : string :=
  "/accounts/" +:+ accountId +:+ "/pages/projects/" +:+ projectName.

Definition getProject (cfToken accountId projectName : string) : M Project :=
  cfApiRequest "GET" (projectUrl accountId projectName) cfToken Undefined.

(** Line 85, [const { jwt: uploadsJwt } = ...], and the text of
    [uploadsJwt] in the template literal of line 61, the only place that
    reads it.  Destructuring [undefined] or [null] throws. *)
Definition uploadsJwtOf (result : JsValue) : Outcome string :=
  match Js.get result "jwt" ≫= Js.toText with
  | Some text => Returned text
  | None => Thrown TypeError
  end.

(** The strings the filter of line 90 finds in [missingHashes].  The filter
    calls [missingHashes.includes] once for each scanned file, so a value
    without that method throws there, unless nothing was scanned. *)
Definition missingHashesOf (files : list UploadableFile.t) (result : JsValue)
    : Outcome (list string) :=
  match Js.included result, files with
  | Some hashes, _ => Returned hashes
  | None, [] => Returned []
  | None, _ :: _ => Thrown TypeError
  end.

(** [missingHashes.includes(file.hash)]. *)
Definition isMissing (missingHashes : list string) (file : UploadableFile.t) : bool :=
  bool_decide (UploadableFile.hash file ∈ missingHashes).

(** [Array.prototype.sort((a, b) => b.size - a.size)]: the sort is stable, so
    its result is the one of a stable insertion sort.  An element stays in
    front of a later one exactly when the comparator is not positive. *)
Fixpoint insertBySize (a : UploadableFile.t) (sorted : list UploadableFile.t)
    : list UploadableFile.t :=
  match sorted with
  | [] => [a]
  | b :: rest =>
      if UploadableFile.size b - UploadableFile.size a <=? 0
      then a :: b :: rest
      else b :: insertBySize a rest
  end.

Definition sortBySizeDescending (files : list UploadableFile.t)
    : list UploadableFile.t :=
  foldr insertBySize [] files.

(** Line 90. *)
Definition filesToUpload (files : list UploadableFile.t)
    (missingHashes : list string) : list UploadableFile.t :=
  sortBySizeDescending (List.filter (isMissing missingHashes) files).

(** [el => el.files.length > 0]. *)
Definition nonEmpty (el : Bucket.t) : bool :=
  (0 <? length (Bucket.files el))%nat.

(** The body of [bucket.files.map(async file => ...)]. *)
Definition toPayload (file : UploadableFile.t) : Outcome UploadFileGroupPayload.t :=
  contents ← readFile (UploadableFile.absolutePath file);
  mret (UploadFileGroupPayload.mk (UploadableFile.hash file)
          (Encoding.base64 contents) (UploadableFile.mime file) true).

(** The body of [uploadBuckets.filter(...).map(async bucket => ...)]. *)
Definition uploadBucket (uploadsJwt : string) (bucket : Bucket.t) : M unit :=
  payload ← await (mapM toPayload (Bucket.files bucket));
  _ ← cfApiRequest "POST" "/pages/assets/upload" uploadsJwt (PayloadArray payload);
  mret ().

(** [Object.fromEntries(entries)]: a later entry overwrites an earlier one
    with the same key. *)
Definition put (obj : gmap string string) (entry : string * string)
    : gmap string string :=
  <[entry.1 := entry.2]> obj.

Definition fromEntries (entries : list (string * string)) : gmap string string :=
  fold_left put entries ∅.

Definition manifest (files : list UploadableFile.t) : gmap string string :=
  fromEntries
    (map (fun file => (UploadableFile.publicUrl file, UploadableFile.hash file)) files).

Record GitData : Type := mkGitData {
  branch : string;
  commit : string;
  commitMessage : string
}.

(** [try { const f = await readFile(join(directory, name), "utf8");
          formData.append(name, new File([f], name)); } catch { }].
    The file of the form holds the decoded text, not the bytes read. *)
Definition attachOptional (directory name : string) (formData : FormData)
    : FormData :=
  match readFile (join directory name) with
  | Returned contents => formData ++ [(name, FormFile (utf8 contents) name)]
  | Thrown _ => formData
  end.

(** Lines 130-145. *)
Definition deploymentForm (files : list UploadableFile.t) (gitData : GitData)
    (directory : string) : FormData :=
  let formData :=
    [ ("manifest", FormJson (manifest files));
      ("branch", FormString (branch gitData));
      ("commit_hash", FormString (commit gitData));
      ("commit_message", FormString (commitMessage gitData));
      ("commit_dirty", FormString "false") ] in
  let formData := attachOptional directory "_redirects" formData in
  attachOptional directory "_headers" formData.

Definition upload (cfToken directory accountId projectName : string)
    (gitData : GitData) : M Deployment :=
  files ← await (findUploadableFiles directory);
  tokenResult ← cfApiRequest "GET"
                  (projectUrl accountId projectName +:+ "/upload-token") cfToken
                  Undefined;
  uploadsJwt ← await (uploadsJwtOf tokenResult);
  checkResult ← cfApiRequest "POST" "/pages/assets/check-missing" uploadsJwt
                  (HashesObject (map UploadableFile.hash files));
  missingHashes ← await (missingHashesOf files checkResult);
  let uploadBuckets := Packer.uploadBuckets (filesToUpload files missingHashes) in
  _ ← forEach (uploadBucket uploadsJwt) (List.filter nonEmpty uploadBuckets);
  _ ← cfApiRequest "POST" "/pages/assets/upsert-hashes" uploadsJwt
        (HashesObject (map UploadableFile.hash files));
  cfApiRequest "POST"
    (projectUrl accountId projectName +:+ "/deployments") cfToken
    (FormDataObject (deploymentForm files gitData directory)).

(** *** The two halves of [upload] and the requests of a run *)

(** Lines 83-127: everything [upload] does before it builds the form. *)
Definition syncAssets (cfToken directory accountId projectName : string)
    : M (list UploadableFile.t) :=
  files ← await (findUploadableFiles directory);
  tokenResult ← cfApiRequest "GET"
                  (projectUrl accountId projectName +:+ "/upload-token") cfToken
                  Undefined;
  uploadsJwt ← await (uploadsJwtOf tokenResult);
  checkResult ← cfApiRequest "POST" "/pages/assets/check-missing" uploadsJwt
                  (HashesObject (map UploadableFile.hash files));
  missingHashes ← await (missingHashesOf files checkResult);
  let uploadBuckets := Packer.uploadBuckets (filesToUpload files missingHashes) in
  _ ← forEach (uploadBucket uploadsJwt) (List.filter nonEmpty uploadBuckets);
  _ ← cfApiRequest "POST" "/pages/assets/upsert-hashes" uploadsJwt
        (HashesObject (map UploadableFile.hash files));
  mret files.

(** Line 148: the last call of [upload]. *)
Definition createDeployment (cfToken accountId projectName : string)
    (formData : FormData) : M Deployment :=
  cfApiRequest "POST"
    (projectUrl accountId projectName +:+ "/deployments") cfToken
    (FormDataObject formData).

(** The request [uploadBucket] sends for a payload. *)
Definition uploadRequest (uploadsJwt : string)
    (payload : list UploadFileGroupPayload.t) : Request.t :=
  requestFor "POST" "/pages/assets/upload" uploadsJwt (PayloadArray payload).

(** The requests of a run of [upload] in which every call returns. *)
Definition requestsOfRun (cfToken directory accountId projectName : string)
    (gitData : GitData) (files : list UploadableFile.t) (uploadsJwt : string)
    (payloads : list (list UploadFileGroupPayload.t)) : list Request.t :=
  [ requestFor "GET" (projectUrl accountId projectName +:+ "/upload-token")
      cfToken Undefined;
    requestFor "POST" "/pages/assets/check-missing" uploadsJwt
      (HashesObject (map UploadableFile.hash files)) ]
  ++ map (uploadRequest uploadsJwt) payloads
  ++ [ requestFor "POST" "/pages/assets/upsert-hashes" uploadsJwt
         (HashesObject (map UploadableFile.hash files));
       requestFor "POST" (projectUrl accountId projectName +:+ "/deployments")
         cfToken (FormDataObject (deploymentForm files gitData directory)) ].


(** The payload of a request to the upload endpoint, empty for any other. *)
Definition payloadOf (request : Request.t) : list UploadFileGroupPayload.t :=
  match Request.body request with
  | JsonBody (PayloadArray payload) => payload
  | _ => []
  end.

(** The storage keys transmitted, one per uploaded copy, in sending order. *)
Definition transmittedKeys (requests : list Request.t) : list string :=
  map UploadFileGroupPayload.key (flat_map payloadOf requests).

(** The manifest of a request that carries a deployment form. *)
Definition manifestOf (request : Request.t) : option (gmap string string) :=
  match Request.body request with
  | MultipartBody formData =>
      match formData with
      | ("manifest", FormJson obj) :: _ => Some obj
      | _ => None
      end
  | _ => None
  end.

(** How often a key occurs in a list of keys. *)
Definition occurrences (key : string) (keys : list string) : nat :=
  length (List.filter (String.eqb key) keys).

(** The names of the fields of a request that carries a form. *)
Definition fieldsOf (request : Request.t) : list string :=
  match Request.body request with
  | MultipartBody formData => map fst formData
  | _ => []
  end.

(** The payloads of the buckets whose files can all be read. *)
Definition readablePayloads (buckets : list Bucket.t)
    : list (list UploadFileGroupPayload.t) :=
  omap (fun bucket =>
          match mapM toPayload (Bucket.files bucket) with
          | Returned payload => Some payload
          | Thrown _ => None
          end) buckets.

(** What the remote store answered to the first two requests of a run from
    the store [world]: the upload token and the missing hashes. *)
Definition answered (cfToken accountId projectName : string)
    (files : list UploadableFile.t) (world : World)
    (uploadsJwt : string) (missingHashes : list string) : Prop :=
  exists tokenResponse world1 tokenResult checkResponse world2 checkResult,
    fetch (requestFor "GET" (projectUrl accountId projectName +:+ "/upload-token")
             cfToken Undefined) world
    = (Returned tokenResponse, world1)
    /\ jsonResult tokenResponse = Returned tokenResult
    /\ uploadsJwtOf tokenResult = Returned uploadsJwt
    /\ fetch (requestFor "POST" "/pages/assets/check-missing" uploadsJwt
                (HashesObject (map UploadableFile.hash files))) world1
       = (Returned checkResponse, world2)
    /\ jsonResult checkResponse = Returned checkResult
    /\ missingHashesOf files checkResult = Returned missingHashes.

End WithPlatform.
End Upload.

(** ** Sample inputs *)

Module Sample.

(** *** A small site and a small remote store

    The directory [/site] holds two copies of one page, a text file, a
    headers file and, one level down, a redirects file; the remote store
    remembers the fingerprints it was sent. *)

Definition page : list byte := list_byte_of_string "<h1>hi</h1>".
Definition notes : list byte := list_byte_of_string "notes".

Definition disk : list (string * list byte) :=
  [ ("/site/index.html", page); ("/site/copy/index.html", page);
    ("/site/notes.txt", notes); ("/site/notes.md", notes);
    ("/site/_headers", list_byte_of_string "/*");
    ("/site/copy/_redirects", list_byte_of_string "/a /b") ].

Definition entries : list Dirent.t :=
  [ Dirent.mk "index.html" "/site" true; Dirent.mk "copy" "/site" false;
    Dirent.mk "notes.txt" "/site" true; Dirent.mk "notes.md" "/site" true;
    Dirent.mk "_headers" "/site" true;
    Dirent.mk "index.html" "/site/copy" true;
    Dirent.mk "_redirects" "/site/copy" true ].

Fixpoint assoc {A} (key : string) (table : list (string * A)) : option A :=
  match table with
  | [] => None
  | (k, v) :: rest => if String.eqb k key then Some v else assoc key rest
  end.

Definition startsWith (prefix s : string) : bool := String.prefix prefix s.

Definition dropPrefix (prefix s : string) : string :=
  if startsWith prefix s
  then String.substring (String.length prefix)
         (String.length s - String.length prefix) s
  else s.

(** The text after the last dot of [s], dot included, when a dot follows a
    first character that is neither a dot nor a slash. *)
Fixpoint lastDot (s : string) (seenName : bool) : option string :=
  match s with
  | EmptyString => None
  | String c rest =>
      match lastDot rest (negb (Ascii.eqb c "/")) with
      | Some e => Some e
      | None =>
          if Ascii.eqb c "." && seenName
             && negb (existsb (Ascii.eqb "/") (list_ascii_of_string rest))
          then Some s else None
      end
  end.

(** Splits at commas; the empty string is the empty list. *)
Fixpoint commaSplit (s : string) (current : string) : list string :=
  match s with
  | EmptyString => if String.eqb current "" then [] else [current]
  | String c rest =>
      if Ascii.eqb c "," then current :: commaSplit rest ""
      else commaSplit rest (current +:+ String c "")
  end.

Definition commaJoin (items : list string) : string := String.concat "," items.

Definition endsWith (suffix s : string) : bool :=
  startsWith (String.rev suffix) (String.rev s).

(** The bodies of the sample store are written in a notation of their own,
    which [parse] reads as [response.json()] reads JSON: [jwt:t] is
    [{ result: { jwt: "t" } }], [hashes:a,b] is [{ result: ["a", "b"] }],
    [null] is [{ result: null }], [id:d] is [{ result: { id: "d" } }] and
    [{}] is the empty object; any other text is not JSON. *)
Definition envelope (result : JsValue) : JsValue :=
  JsObject [("success", JsBoolean true); ("result", result)].

Definition parse (text : string) : option JsValue :=
  if startsWith "jwt:" text
  then Some (envelope (JsObject [("jwt", JsString (dropPrefix "jwt:" text))]))
  else if startsWith "hashes:" text
  then Some (envelope
               (JsArray (map JsString (commaSplit (dropPrefix "hashes:" text) ""))))
  else if String.eqb text "null" then Some (envelope JsNull)
  else if String.eqb text "{}" then Some (JsObject [])
  else if startsWith "id:" text
  then Some (envelope (JsObject [("id", JsString (dropPrefix "id:" text))]))
  else None.

(** U+FFFD as the three bytes that spell it. *)
Definition replacement : string := string_of_list_byte [xef; xbf; xbd].

(** [buffer.toString("utf8")] on ASCII text, which is all the sample sites
    hold; a byte outside ASCII is taken as ill formed. *)
Definition decode (bytes : list byte) : string :=
  String.concat ""
    (map (fun b => if (Byte.to_N b <? 128)%N
                   then String (ascii_of_byte b) "" else replacement) bytes).

(** The store answers with status 200, except that it does not know the
    project [gone]; for the project [bare] it answers with an object that
    has no [result]. *)
Definition store (request : Request.t) (known : list string)
    : Outcome Response.t * list string :=
  match Request.body request with
  | JsonBody (HashesObject hashes) =>
      if endsWith "/check-missing" (Request.url request)
      then (Returned (Response.mk 200
              ("hashes:" +:+
               commaJoin (List.filter (fun h => negb (bool_decide (h ∈ known))) hashes))),
            known)
      else (Returned (Response.mk 200 "null"), hashes ++ known)
  | JsonBody (PayloadArray payload) =>
      (Returned (Response.mk 200 "null"),
       map UploadFileGroupPayload.key payload ++ known)
  | NoBody =>
      if endsWith "/projects/gone" (Request.url request)
      then (Returned (Response.mk 404 "project not found"), known)
      else if endsWith "/projects/bare/upload-token" (Request.url request)
      then (Returned (Response.mk 200 "{}"), known)
      else (Returned (Response.mk 200 "jwt:token"), known)
  | _ => (Returned (Response.mk 200 "id:deployment-1"), known)
  end.

#[export] Instance platform : Platform := {|
  World := list string;
  FCFP_VERSION := "1.0.0";
  readdir dir :=
    if String.eqb dir "/site" then Returned entries else Thrown (SystemError "ENOENT");
  stat p :=
    match assoc p disk with
    | Some contents => Returned (Z.of_nat (length contents))
    | None => Thrown (SystemError "ENOENT")
    end;
  readFile p :=
    match assoc p disk with
    | Some contents => Returned contents
    | None => Thrown (SystemError (if String.eqb p "/site/_redirects"
                                   then "EACCES" else "ENOENT"))
    end;
  utf8 := decode;
  resolve segments :=
    fold_left (fun acc seg => if startsWith "/" seg then seg else acc +:+ "/" +:+ seg)
      segments "/cwd";
  relative from to := dropPrefix (from +:+ "/") to;
  join a b := a +:+ "/" +:+ b;
  sep := "/"%char;
  extname p := default "" (lastDot p false);
  blake3 data dkLen :=
    take dkLen (reverse (list_byte_of_string data) ++ replicate dkLen x00);
  mimeLookup p :=
    if endsWith ".html" p then Some "text/html"
    else if endsWith ".txt" p then Some "text/plain" else None;
  fetch := store;
  parseJson := parse
|}.

Definition gitData : Upload.GitData := Upload.mkGitData "main" "c0ffee" "update".
(** A state of a run against the sample store. *)
Definition state (known : list string) (requests : list Request.t) : Upload.State :=
  Upload.mkState known requests.
Definition start : Upload.State := state [] [].

(** The run of [upload] on the sample site against the empty store, and the
    state it reaches before the form is built. *)
Definition run : Outcome JsValue * Upload.State :=
  Upload.upload "secret" "/site" "acct" "proj" gitData start.
Definition finished : Upload.State := snd run.
Definition synced : Upload.State :=
  snd (Upload.syncAssets "secret" "/site" "acct" "proj" start).

(** The run against a store that already holds the asset of [notes.txt]. *)
Definition revisit : Upload.State := state ["7478743d4d585a30396d620000000000"] [].
Definition revisited : Upload.State :=
  snd (Upload.upload "secret" "/site" "acct" "proj" gitData revisit).

(** The records of the sample site. *)
Definition indexPage : UploadableFile.t :=
  UploadableFile.mk "/site/index.html" 11 "text/html"
    "6c6d74683d34544d6f39435070686d50" "/index.html".
Definition notesTxt : UploadableFile.t :=
  UploadableFile.mk "/site/notes.txt" 5 "text/plain"
    "7478743d4d585a30396d620000000000" "/notes.txt".
Definition notesMd : UploadableFile.t :=
  UploadableFile.mk "/site/notes.md" 5 "application/octet-stream"
    "646d3d4d585a30396d62000000000000" "/notes.md".
Definition copyPage : UploadableFile.t :=
  UploadableFile.mk "/site/copy/index.html" 11 "text/html"
    "6c6d74683d34544d6f39435070686d50" "/copy/index.html".
Definition scanned : list UploadableFile.t :=
  [indexPage; notesTxt; notesMd; copyPage].


(** A record as the scanner would build it for [/site<name>]. *)
Definition record (name : string) (size : Z) (hash : string) : UploadableFile.t :=
  UploadableFile.mk ("/site" +:+ name) size "application/octet-stream" hash name.

Definition MiB : Z := 1024 * 1024.

(** Three files that fill two buckets exactly and a third in part. *)
Definition fitting : list UploadableFile.t :=
  [ record "/a.bin" (50 * MiB) "aa"; record "/b.bin" (30 * MiB) "bb";
    record "/c.bin" (20 * MiB) "cc"; record "/d.bin" (20 * MiB) "dd" ].

(** One file of 60 MiB and one of 10 MiB. *)
Definition big : UploadableFile.t := record "/video.mp4" (60 * MiB) "b1".
Definition small : UploadableFile.t := record "/index.html" (10 * MiB) "51".
Definition oversize : list UploadableFile.t := [big; small].

(** Two files of 50 MiB, then 5001 files of one byte each, already in
    descending order of size. *)
Definition tiny (n : nat) : UploadableFile.t :=
  record ("/t" +:+ pretty n) 1 ("t" +:+ pretty n).
Definition crowded : list UploadableFile.t :=
  record "/x.bin" (50 * MiB) "xx" :: record "/y.bin" (50 * MiB) "yy"
  :: map tiny (seq 0 (Z.to_nat 5001)).

End Sample.

(** ** Decoders for the two encodings

    [Buffer.from(text, "hex")] and [Buffer.from(text, "base64")] on text that
    [toString] produced: what the remote store does with a key and a payload
    value. *)

Module Decoding.

Definition isHexDigit (c : ascii) : bool :=
  existsb (Ascii.eqb c) (list_ascii_of_string "0123456789abcdef").

Fixpoint unhex (text : string) : option (list byte) :=
  match text with
  | EmptyString => Some []
  | String high (String low rest) =>
      match Encoding.unhexByte high low, unhex rest with
      | Some b, Some bytes => Some (b :: bytes)
      | _, _ => None
      end
  | _ => None
  end.

Definition isBase64Digit (c : ascii) : bool :=
  existsb (Ascii.eqb c)
    (list_ascii_of_string
       "ABCDEFGHIJKLMNOPQRSTUVWXYZabcdefghijklmnopqrstuvwxyz0123456789+/").

(** The value of a digit of the base64 alphabet. *)
Definition base64Value (c : ascii) : option N :=
  let n := N_of_ascii c in
  if (65 <=? n)%N && (n <=? 90)%N then Some (n - 65)%N
  else if (97 <=? n)%N && (n <=? 122)%N then Some (n - 71)%N
  else if (48 <=? n)%N && (n <=? 57)%N then Some (n + 4)%N
  else if (n =? 43)%N then Some 62%N
  else if (n =? 47)%N then Some 63%N
  else None.

(** The 24 bits four digits spell. *)
Definition group (c1 c2 c3 c4 : ascii) : option N :=
  match base64Value c1, base64Value c2, base64Value c3, base64Value c4 with
  | Some v1, Some v2, Some v3, Some v4 =>
      Some (v1 * 262144 + v2 * 4096 + v3 * 64 + v4)%N
  | _, _, _, _ => None
  end.

Definition byteAt (n : N) (shift : N) : option byte :=
  Byte.of_N (N.land (N.shiftr n shift) 255).

Fixpoint unbase64 (text : string) : option (list byte) :=
  match text with
  | EmptyString => Some []
  | String c1 (String c2 (String c3 (String c4 rest))) =>
      if Ascii.eqb c4 "="
      then
        match rest with
        | EmptyString =>
            if Ascii.eqb c3 "="
            then match group c1 c2 "A" "A" with
                 | Some n => a ← byteAt n 16; Some [a]
                 | None => None
                 end
            else match group c1 c2 c3 "A" with
                 | Some n => a ← byteAt n 16; b ← byteAt n 8; Some [a; b]
                 | None => None
                 end
        | _ => None
        end
      else
        match group c1 c2 c3 c4, unbase64 rest with
        | Some n, Some bytes =>
            a ← byteAt n 16; b ← byteAt n 8; c ← byteAt n 0; Some (a :: b :: c :: bytes)
        | _, _ => None
        end
  | _ => None
  end.

End Decoding.

(** ** Variants of the sample site *)

Module Variants.

(** The sample platform with another directory tree and another path
    library. *)
Definition platformWith (root : string) (listing : list Dirent.t)
    (disk : list (string * list byte)) (separator : ascii) : Platform := {|
  World := @World Sample.platform;
  FCFP_VERSION := @FCFP_VERSION Sample.platform;
  readdir dir :=
    if String.eqb dir root then Returned listing else Thrown (SystemError "ENOENT");
  stat p :=
    match Sample.assoc p disk with
    | Some contents => Returned (Z.of_nat (length contents))
    | None => Thrown (SystemError "ENOENT")
    end;
  readFile p :=
    match Sample.assoc p disk with
    | Some contents => Returned contents
    | None => Thrown (SystemError "ENOENT")
    end;
  utf8 := @utf8 Sample.platform;
  resolve segments :=
    match segments with
    | [dir] => dir
    | _ => String.concat (String separator "") (tail segments)
    end;
  relative from to := Sample.dropPrefix (from +:+ String separator "") to;
  join a b := a +:+ String separator "" +:+ b;
  sep := separator;
  extname := @extname Sample.platform;
  blake3 := @blake3 Sample.platform;
  mimeLookup := @mimeLookup Sample.platform;
  fetch := @fetch Sample.platform;
  parseJson := @parseJson Sample.platform
|}.

(** A site on a host whose separator is the backslash. *)
Definition windows : Platform :=
  platformWith "C:\site"
    [ Dirent.mk "index.html" "C:\site\copy" true ]
    [ ("C:\site\copy\index.html", Sample.page) ]
    "\"%char.

(** A site whose listing names a file that cannot be read. *)
Definition vanished : Platform :=
  platformWith "/site"
    [ Dirent.mk "index.html" "/site" true; Dirent.mk "gone.txt" "/site" true ]
    [ ("/site/index.html", Sample.page) ]
    "/"%char.

(** A site whose [_headers] file is one byte that is no UTF-8 text. *)
Definition garbled : Platform :=
  platformWith "/site"
    [ Dirent.mk "index.html" "/site" true; Dirent.mk "_headers" "/site" true ]
    [ ("/site/index.html", Sample.page); ("/site/_headers", [xff]) ]
    "/"%char.

End Variants.

(** ** [index.ts]: what [run] computes between its calls

    The calls themselves (inputs, GitHub API, job summary) are outside this
    development; the expressions that decide what is deployed, under which
    environment name, and whether a comment is posted are embedded here.
    Reading a property of [undefined] or [null] throws a [TypeError]: such an
    expression is an [option], [None] for the throw. *)

Module Index.

(** The parts of a webhook payload [run] reads. *)
Record PullRequest : Type := mkPullRequest {
  head_ref : string;      (* [pull_request.head.ref] *)
  head_sha : string;      (* [pull_request.head.sha] *)
  title : string;
  number : Z
}.

Record Release : Type := mkRelease { target_commitish : string; name : string }.

Record Payload : Type := mkPayload {
  pull_request : option PullRequest;
  head_commit : option string;        (* [head_commit.message], if there is a head commit *)
  release : option Release
}.

(** [context] of [@actions/github]. *)
Record Context : Type := mkContext {
  eventName : string;
  ref : string;
  sha : string;
  payload : Payload
}.

(** The fields of a Pages [Project] and [Deployment] that [run] reads. *)
Record Project : Type := mkProject {
  production_branch : string;
  domains : list string;
  subdomain : string
}.

Record Deployment : Type := mkDeployment {
  id : string;
  url : string;
  branch : string                     (* [deployment_trigger.metadata.branch] *)
}.

(** An issue comment: [body] may be [undefined]; [user.type]. *)
Record Comment : Type := mkComment { body : option string; userType : string }.

Definition isEventType (context : Context) (type : string) : bool :=
  String.eqb (eventName context) type.

(** Lines 27-29. *)
Definition refOf (context : Context) : option string :=
  if isEventType context "pull_request"
  then head_ref <$> pull_request (payload context)
  else if isEventType context "release"
  then target_commitish <$> release (payload context)
  else Some (ref context).

(** Line 30. *)
Definition shaOf (context : Context) : option string :=
  if isEventType context "pull_request"
  then head_sha <$> pull_request (payload context)
  else Some (sha context).

(** Lines 31-34. *)
Definition commitMessageOf (context : Context) : option string :=
  if isEventType context "pull_request" then title <$> pull_request (payload context)
  else if isEventType context "push" then head_commit (payload context)
  else if isEventType context "release" then name <$> release (payload context)
  else Some "".

(** Lines 35-39, evaluated in source order. *)
Definition gitDataOf (context : Context) : option Upload.GitData :=
  branch ← refOf context;
  commit ← shaOf context;
  commitMessage ← commitMessageOf context;
  Some (Upload.mkGitData branch commit commitMessage).

(** Line 45. *)
Definition isProduction (project : Project) (ref : string) : bool :=
  String.eqb (production_branch project) ref.

(** Line 47. *)
Definition environmentString (projectName ref : string) (isProduction : bool)
    : string :=
  if isProduction then projectName +:+ " (Production)"
  else projectName +:+ " (Preview - " +:+ ref +:+ ")".

(** Line 72. *)
Definition logUrl (accountId projectName : string) (cfDeployment : Deployment)
    : string :=
  "https://dash.cloudflare.com/" +:+ accountId +:+ "/pages/view/" +:+ projectName
  +:+ "/" +:+ id cfDeployment.

(** Line 83: [None] is [undefined], the last element of an empty array. *)
Definition aliasUrl (project : Project) (cfDeployment : Deployment)
    (isProduction : bool) : option string :=
  if isProduction then last (domains project)
  else Some ("https://" +:+ branch cfDeployment +:+ "." +:+ subdomain project).

(** A value inside a template literal. *)
Definition interpolate (value : option string) : string :=
  default "undefined" value.

(** [`Sign: ${Buffer.from(ref).toString("base64")}`]. *)
Definition sign (ref : string) : string :=
  "Sign: " +:+ Encoding.base64 (list_byte_of_string ref).

Definition newline : string := String (ascii_of_N 10) "".

(** Lines 112-116. *)
Definition commentBody (aliasUrl : option string) (ref : string) : string :=
  "Visit the preview URL for this PR:" +:+ newline +:+ newline
  +:+ "[**" +:+ interpolate aliasUrl +:+ "**](" +:+ interpolate aliasUrl +:+ ")"
  +:+ newline +:+ newline
  +:+ "<sub>" +:+ sign ref +:+ "</sub>".

(** [String.prototype.includes]. *)
Fixpoint includes (search text : string) : bool :=
  String.prefix search text
  || match text with
     | EmptyString => false
     | String _ rest => includes search rest
     end.

(** Line 107: [comment.body?.includes(...) && comment.user.type === "Bot"]. *)
Definition isLinkComment (ref : string) (comment : Comment) : bool :=
  match body comment with
  | Some text => includes (sign ref) text && String.eqb (userType comment) "Bot"
  | None => false
  end.

Definition existingLinkComment (comments : list Comment) (ref : string)
    : option Comment :=
  List.find (isLinkComment ref) comments.

(** Lines 100 and 108: whether [createComment] is called. *)
Definition postsComment (context : Context) (comments : list Comment)
    (ref : string) : bool :=
  isEventType context "pull_request"
  && match existingLinkComment comments ref with
     | Some _ => false
     | None => true
     end.

End Index.

(** * Properties *)

(** ** The packer *)

Module PackerFacts.
Import Packer.

Lemma alter_split {A} (g : A -> A) (l : list A) (k : nat) (x : A) :
  l !! k = Some x ->
  exists l1 l2, l = l1 ++ x :: l2 /\ alter g k l = l1 ++ g x :: l2 /\ length l1 = k.
Proof.
  revert k. induction l as [|y l IH]; intros [|k] Hk; simplify_eq/=.
  - by exists [], l.
  - destruct (IH _ Hk) as (l1 & l2 & -> & Halter & <-).
    exists (y :: l1), l2. simpl. by rewrite Halter.
Qed.

(** A successful search names a bucket that passed the test, and the bucket
    mutated is that one. *)
Lemma findOffset_Some buckets file i j :
  findOffset buckets file i = Some j ->
  exists bucket,
    buckets !! ((j + i) mod length buckets)%nat = Some bucket
    /\ accepts file bucket = true.
Proof.
  unfold findOffset. intros H. apply find_some in H as [_ H].
  rewrite (Nat.add_comm j i).
  destruct (buckets !! _) as [bucket|]; [eauto | done].
Qed.

(** The shape of one step: either one accepting bucket grows in place, or a
    bucket holding only the file is appended. *)
Lemma packStep_cases buckets file i :
  (exists l1 bucket l2,
      buckets = l1 ++ bucket :: l2
      /\ accepts file bucket = true
      /\ packStep buckets file i = l1 ++ addFile file bucket :: l2)
  \/ (findOffset buckets file i = None
      /\ packStep buckets file i = buckets ++ [addFile file emptyBucket]).
Proof.
  unfold packStep. destruct (findOffset buckets file i) as [j|] eqn:Hfind.
  - left. apply findOffset_Some in Hfind as (bucket & Hlook & Hacc).
    destruct (alter_split (addFile file) _ _ _ Hlook) as (l1 & l2 & Heq & Halter & _).
    exists l1, bucket, l2. by rewrite Halter.
  - by right.
Qed.

Section Invariant.
(** A property of buckets kept by every step, for files that satisfy
    [okFile]. *)
Variable inv : Bucket.t -> Prop.
Variable okFile : UploadableFile.t -> Prop.
Hypothesis inv_grow : forall file bucket,
  okFile file -> inv bucket -> accepts file bucket = true ->
  inv (addFile file bucket).
Hypothesis inv_fresh : forall file, okFile file -> inv (addFile file emptyBucket).

Lemma packStep_inv buckets file i :
  okFile file -> Forall inv buckets -> Forall inv (packStep buckets file i).
Proof.
  intros Hfile Hall.
  destruct (packStep_cases buckets file i)
    as [(l1 & bucket & l2 & -> & Hacc & ->) | [_ ->]].
  - apply Forall_app in Hall as [H1 H2]. apply Forall_cons in H2 as [Hb H2].
    apply Forall_app. split; [done|]. apply Forall_cons. split; [|done].
    by apply inv_grow.
  - apply Forall_app. split; [done|]. apply Forall_cons. split; [|constructor].
    by apply inv_fresh.
Qed.

Lemma statesFrom_inv files : forall i buckets,
  Forall okFile files -> Forall inv buckets ->
  Forall (Forall inv) (statesFrom i buckets files).
Proof.
  induction files as [|file rest IH]; intros i buckets Hfiles Hall; simpl.
  - by repeat constructor.
  - apply Forall_cons in Hfiles as [Hfile Hrest].
    constructor; [done|]. apply IH; [done|]. by apply packStep_inv.
Qed.
End Invariant.

(** The final accumulator is the last state of the trace. *)
Lemma reduceFrom_last files : forall i buckets,
  last (statesFrom i buckets files) = Some (reduceFrom i buckets files).
Proof.
  induction files as [|file rest IH]; intros i buckets; [done|].
  simpl. rewrite <- (IH (S i) (packStep buckets file i)).
  by destruct rest.
Qed.

Lemma uploadBuckets_in_states files :
  uploadBuckets files ∈ packingStates files.
Proof.
  unfold uploadBuckets, packingStates.
  pose proof (reduceFrom_last files 0 initialBuckets) as H.
  apply last_Some in H as [l ->]. set_solver.
Qed.

Lemma initialBuckets_inv (inv : Bucket.t -> Prop) :
  inv emptyBucket -> Forall inv initialBuckets.
Proof. intros H. unfold initialBuckets. simpl. by repeat constructor. Qed.

(** An invariant of the steps holds of every bucket of every state. *)
Lemma packingStates_inv (inv : Bucket.t -> Prop) (okFile : UploadableFile.t -> Prop)
    (files : list UploadableFile.t) :
  (forall file bucket,
      okFile file -> inv bucket -> accepts file bucket = true ->
      inv (addFile file bucket)) ->
  (forall file, okFile file -> inv (addFile file emptyBucket)) ->
  inv emptyBucket ->
  (forall file, file ∈ files -> okFile file) ->
  forall buckets bucket,
    buckets ∈ packingStates files -> bucket ∈ buckets -> inv bucket.
Proof.
  intros Hgrow Hfresh Hempty Hfiles buckets bucket Hstate Hbucket.
  assert (Forall (Forall inv) (packingStates files)) as Hall.
  { apply (statesFrom_inv inv okFile Hgrow Hfresh).
    - by apply Forall_forall.
    - by apply initialBuckets_inv. }
  rewrite Forall_forall in Hall. specialize (Hall _ Hstate).
  rewrite Forall_forall in Hall. exact (Hall _ Hbucket).
Qed.

(** The index the search reads is always inside the array. *)
Lemma findOffset_in_range (buckets : list Bucket.t) (i j : nat) :
  j ∈ seq 0 (length buckets) ->
  is_Some (buckets !! ((i + j) mod length buckets)%nat).
Proof.
  intros Hj. apply elem_of_seq in Hj. apply lookup_lt_is_Some.
  apply Nat.mod_upper_bound. lia.
Qed.

Lemma totalSize_app l1 l2 : totalSize (l1 ++ l2) = totalSize l1 + totalSize l2.
Proof. induction l1 as [|f l1 IH]; simpl; [done|]. rewrite IH. lia. Qed.

(** A step adds the file to the buckets and moves nothing else. *)
Lemma packStep_files buckets file i :
  flat_map Bucket.files (packStep buckets file i)
  ≡ₚ flat_map Bucket.files buckets ++ [file].
Proof.
  destruct (packStep_cases buckets file i)
    as [(l1 & bucket & l2 & -> & _ & ->) | [_ ->]].
  - rewrite !flat_map_app. simpl. rewrite <- !app_assoc.
    apply Permutation_app_head. apply Permutation_app_head.
    apply Permutation_app_comm.
  - rewrite flat_map_app. by simpl.
Qed.

Lemma reduceFrom_files files : forall i buckets,
  flat_map Bucket.files (reduceFrom i buckets files)
  ≡ₚ flat_map Bucket.files buckets ++ files.
Proof.
  induction files as [|file rest IH]; intros i buckets; simpl.
  - by rewrite app_nil_r.
  - rewrite IH, packStep_files, <- app_assoc. done.
Qed.

(** The buckets hold every file to upload once per occurrence. *)
Lemma uploadBuckets_files files :
  flat_map Bucket.files (uploadBuckets files) ≡ₚ files.
Proof. unfold uploadBuckets. by rewrite reduceFrom_files. Qed.

Lemma totalSize_Permutation l1 l2 : l1 ≡ₚ l2 -> totalSize l1 = totalSize l2.
Proof. induction 1; simpl; lia. Qed.

(** [size] is the sum of the sizes of [files], for any input. *)
Lemma uploadBuckets_size files :
  Forall (fun b => Bucket.size b = totalSize (Bucket.files b)) (uploadBuckets files).
Proof.
  apply Forall_forall. intros bucket Hbucket.
  apply (packingStates_inv (fun b => Bucket.size b = totalSize (Bucket.files b))
           (fun _ => True) files) with (buckets := uploadBuckets files);
    [ | | done | done | apply uploadBuckets_in_states | done].
  - intros f b _ Hb _. simpl. rewrite totalSize_app. simpl. lia.
  - intros f _. simpl. lia.
Qed.

(** The byte totals of the buckets add up to the bytes of the input. *)
Lemma uploadBuckets_total files :
  foldr (fun b acc => Bucket.size b + acc) 0 (uploadBuckets files)
  = totalSize files.
Proof.
  rewrite <- (totalSize_Permutation _ _ (uploadBuckets_files files)).
  pose proof (uploadBuckets_size files) as H.
  induction H as [|b l Hb _ IH]; simpl; [done|].
  rewrite totalSize_app, IH, Hb. done.
Qed.

End PackerFacts.

Module PackerTheorems.
Import Packer PackerFacts.

(** C1. If every file to upload has a size of at most 50 MiB (52428800
    bytes), then in every state the packing accumulator goes through, the
    final one included, every bucket's running [size] is the sum of the sizes
    of its files and that sum is at most 50 MiB. *)
Theorem bucket_bytes_within_cap (filesToUpload : list UploadableFile.t) :
  (forall file, file ∈ filesToUpload -> UploadableFile.size file <= 52428800) ->
  uploadBuckets filesToUpload ∈ packingStates filesToUpload
  /\ forall buckets bucket,
       buckets ∈ packingStates filesToUpload -> bucket ∈ buckets ->
       Bucket.size bucket = totalSize (Bucket.files bucket)
       /\ totalSize (Bucket.files bucket) <= 52428800.
Proof.
  intros Hsizes. split; [apply uploadBuckets_in_states|].
  apply (packingStates_inv
           (fun b => Bucket.size b = totalSize (Bucket.files b)
                     /\ totalSize (Bucket.files b) <= 52428800)
           (fun f => UploadableFile.size f <= 52428800)).
  - intros file bucket Hfile [Hsum Hcap] Hacc. unfold accepts in Hacc.
    apply andb_true_iff in Hacc as [Hacc _]. apply Z.leb_le in Hacc.
    simpl. rewrite totalSize_app. simpl. lia.
  - intros file Hfile. simpl. lia.
  - simpl. lia.
  - exact Hsizes.
Qed.

Lemma bucket_bytes_within_cap_witness :
  (forall file, file ∈ Sample.fitting -> UploadableFile.size file <= 52428800)
  /\ uploadBuckets Sample.fitting ∈ packingStates Sample.fitting
  /\ forall buckets bucket,
       buckets ∈ packingStates Sample.fitting -> bucket ∈ buckets ->
       Bucket.size bucket = totalSize (Bucket.files bucket)
       /\ totalSize (Bucket.files bucket) <= 52428800.
Proof.
  assert (forall file, file ∈ Sample.fitting ->
            UploadableFile.size file <= 52428800) as H.
  { intros file Hin. unfold Sample.fitting in Hin.
    repeat (apply elem_of_cons in Hin as [->|Hin]; [vm_compute; discriminate|]).
    by apply elem_of_nil in Hin. }
  split; [exact H | exact (bucket_bytes_within_cap Sample.fitting H)].
Defined.

(** What the item test does enforce: a bucket is only chosen while it holds
    at most 5000 files, so it can reach 5001 and no more. *)
Lemma bucket_items_at_most_5001 (filesToUpload : list UploadableFile.t) :
  forall buckets bucket,
    buckets ∈ packingStates filesToUpload -> bucket ∈ buckets ->
    Z.of_nat (length (Bucket.files bucket)) <= 5001.
Proof.
  apply (packingStates_inv
           (fun b => Z.of_nat (length (Bucket.files b)) <= 5001) (fun _ => True)).
  - intros file bucket _ Hb Hacc. unfold accepts in Hacc.
    apply andb_true_iff in Hacc as [_ Hacc]. apply Z.leb_le in Hacc.
    simpl. rewrite length_app. simpl. lia.
  - intros file _. simpl. lia.
  - simpl. lia.
  - done.
Qed.

(** C2. The bound of 5000 files per bucket does not hold: on two files of
    50 MiB followed by 5001 files of one byte, the packer returns three
    buckets and the third one holds 5001 files. *)
Theorem bucket_items_overflow :
  map (fun bucket => length (Bucket.files bucket)) (uploadBuckets Sample.crowded)
  = [1%nat; 1%nat; Z.to_nat 5001].
Proof. vm_compute. reflexivity. Qed.

(** *** A file larger than the byte cap *)

Lemma packStep_length buckets file i :
  (length buckets <= length (packStep buckets file i))%nat.
Proof.
  unfold packStep. destruct (findOffset buckets file i).
  - by rewrite length_alter.
  - rewrite length_app. simpl. lia.
Qed.

Lemma reduceFrom_length files : forall i buckets,
  (length buckets <= length (reduceFrom i buckets files))%nat.
Proof.
  induction files as [|file rest IH]; intros i buckets; simpl; [done|].
  etrans; [apply (packStep_length buckets file i) | apply IH].
Qed.

Lemma reduceFrom_app l1 l2 : forall i buckets,
  reduceFrom i buckets (l1 ++ l2)
  = reduceFrom (i + length l1) (reduceFrom i buckets l1) l2.
Proof.
  induction l1 as [|file l1 IH]; intros i buckets; simpl.
  - by rewrite Nat.add_0_r.
  - rewrite IH. f_equal. lia.
Qed.

(** A bucket that rejects a file is left as it is by the step. *)
Lemma packStep_rejecting buckets file i k bucket :
  buckets !! k = Some bucket -> accepts file bucket = false ->
  packStep buckets file i !! k = Some bucket.
Proof.
  intros Hk Hrej. unfold packStep.
  destruct (findOffset buckets file i) as [j|] eqn:Hfind.
  - apply findOffset_Some in Hfind as (chosen & Hlook & Hacc).
    rewrite list_lookup_alter_ne; [done|].
    intros <-. congruence.
  - by apply lookup_app_l_Some.
Qed.

Lemma reduceFrom_rejecting files k bucket : forall i buckets,
  (forall file, file ∈ files -> accepts file bucket = false) ->
  buckets !! k = Some bucket ->
  reduceFrom i buckets files !! k = Some bucket.
Proof.
  induction files as [|file rest IH]; intros i buckets Hrej Hk; simpl; [done|].
  apply IH; [intros f Hf; apply Hrej; by right|].
  apply packStep_rejecting; [done|]. apply Hrej. by left.
Qed.

Lemma reduceFrom_nonneg files : forall i buckets,
  Forall (fun f => 0 <= UploadableFile.size f) files ->
  Forall (fun b => 0 <= Bucket.size b) buckets ->
  Forall (fun b => 0 <= Bucket.size b) (reduceFrom i buckets files).
Proof.
  intros i buckets Hfiles Hall.
  pose proof (statesFrom_inv (fun b => 0 <= Bucket.size b)
                (fun f => 0 <= UploadableFile.size f)) as Hinv.
  pose proof (reduceFrom_last files i buckets) as Hlast.
  apply last_Some in Hlast as [l Hl].
  specialize (Hinv ltac:(simpl; intros; lia) ltac:(simpl; intros; lia)
                files i buckets Hfiles Hall).
  rewrite Hl in Hinv. apply Forall_app in Hinv as [_ Hinv].
  by apply Forall_cons in Hinv as [Hinv _].
Qed.

(** C3. The packer has no size-limit error.  Given a file of 60 MiB, which
    alone exceeds the cap of 50 MiB that the comment on line 92 states, and
    a file of 10 MiB, it raises nothing and returns four buckets; the last
    holds the 60 MiB file, 62914560 bytes against a cap of 52428800, and is
    one of the two non-empty buckets that go to the uploader. *)
Lemma oversize_file_is_packed :
  Sample.big ∈ Sample.oversize
  /\ 52428800 < UploadableFile.size Sample.big
  /\ uploadBuckets Sample.oversize
     = [ emptyBucket; Bucket.mk [Sample.small] 10485760; emptyBucket;
         Bucket.mk [Sample.big] 62914560 ]
  /\ List.filter Upload.nonEmpty (uploadBuckets Sample.oversize)
     = [ Bucket.mk [Sample.small] 10485760; Bucket.mk [Sample.big] 62914560 ].
Proof.
  split; [set_solver|]. split; [by vm_compute|]. split; by vm_compute.
Qed.

(** The sample is no special case.  Whenever sizes are non-negative and a
    file to upload is larger than 50 MiB, no existing bucket accepts it, a
    new bucket is appended for it and no later file joins that bucket: the
    output breaks the cap with a bucket of exactly that one file, which is
    non-empty and so handed to the uploader. *)
Theorem oversize_file_gets_own_bucket (filesToUpload : list UploadableFile.t)
    (file : UploadableFile.t) :
  (forall f, f ∈ filesToUpload -> 0 <= UploadableFile.size f) ->
  file ∈ filesToUpload ->
  52428800 < UploadableFile.size file ->
  let own := Bucket.mk [file] (UploadableFile.size file) in
  (exists k, (3 <= k)%nat /\ uploadBuckets filesToUpload !! k = Some own)
  /\ own ∈ List.filter Upload.nonEmpty (uploadBuckets filesToUpload)
  /\ 52428800 < Bucket.size own.
Proof.
  intros Hnonneg Hin Hbig own.
  assert (exists k, (3 <= k)%nat /\ uploadBuckets filesToUpload !! k = Some own)
    as (k & Hk & Hlook).
  { apply list_elem_of_split in Hin as (l1 & l2 & ->).
    unfold uploadBuckets. rewrite reduceFrom_app. simpl.
    set (before := reduceFrom 0 initialBuckets l1).
    assert (Forall (fun b => 0 <= Bucket.size b) before) as Hbefore.
    { apply reduceFrom_nonneg.
      - apply Forall_forall. intros f Hf. apply Hnonneg. set_solver.
      - apply initialBuckets_inv. simpl. lia. }
    assert (forall f b, 0 <= UploadableFile.size f -> 52428800 < Bucket.size b ->
              accepts f b = false) as Hfull.
    { intros f b Hf Hb. unfold accepts. apply andb_false_iff. left.
      apply Z.leb_gt. lia. }
    assert (forall i, packStep before file i = before ++ [own]) as Hstep.
    { intros i. unfold packStep.
      destruct (findOffset before file i) as [j|] eqn:Hfind; [|done].
      apply findOffset_Some in Hfind as (chosen & Hlook & Hacc).
      rewrite Forall_forall in Hbefore.
      assert (0 <= Bucket.size chosen) as Hc
        by (apply Hbefore; eapply list_elem_of_lookup_2; eauto).
      unfold accepts in Hacc. apply andb_true_iff in Hacc as [Hacc _].
      apply Z.leb_le in Hacc. lia. }
    rewrite Hstep. exists (length before). split.
    - pose proof (reduceFrom_length l1 0 initialBuckets). simpl in *.
      unfold before. lia.
    - apply reduceFrom_rejecting.
      + intros f Hf. apply Hfull; [apply Hnonneg; set_solver | done].
      + by rewrite list_lookup_middle. }
  split; [by exists k|]. split; [|done].
  apply list_elem_of_In, filter_In. split; [|done].
  apply list_elem_of_In. eapply list_elem_of_lookup_2; eauto.
Qed.

Lemma oversize_file_gets_own_bucket_witness :
  let own := Bucket.mk [Sample.big] (UploadableFile.size Sample.big) in
  (exists k, (3 <= k)%nat /\ uploadBuckets Sample.oversize !! k = Some own)
  /\ own ∈ List.filter Upload.nonEmpty (uploadBuckets Sample.oversize)
  /\ 52428800 < Bucket.size own.
Proof.
  apply (oversize_file_gets_own_bucket Sample.oversize Sample.big).
  - intros f Hf. unfold Sample.oversize in Hf.
    repeat (apply elem_of_cons in Hf as [->|Hf]; [by vm_compute|]).
    by apply elem_of_nil in Hf.
  - unfold Sample.oversize. by left.
  - by vm_compute.
Defined.

End PackerTheorems.

(** ** JavaScript values *)

Module JsFacts.
Import Js.

Lemma elem_of_prefixes (s : string) : forall h,
  h ∈ prefixes s <-> exists rest, s = h +:+ rest.
Proof.
  induction s as [|c r IH]; intros h; simpl.
  - rewrite list_elem_of_singleton. split.
    + intros ->. by exists "".
    + intros [rest H]. by destruct h.
  - rewrite elem_of_cons. change (map (String c) (prefixes r))
      with (String c <$> prefixes r). rewrite list_elem_of_fmap. split.
    + intros [-> | (h' & -> & Hin)]; [by eexists|].
      apply IH in Hin as [rest ->]. by exists rest.
    + intros [rest H]. destruct h as [|c' h']; [by left|]. right.
      simpl in H. injection H as <- ->. exists h'. split; [done|].
      apply IH. by exists rest.
Qed.

(** [substrings s] lists what [s.includes] finds. *)
Lemma elem_of_substrings (s : string) : forall h,
  h ∈ substrings s <-> exists before after, s = before +:+ h +:+ after.
Proof.
  induction s as [|c r IH]; intros h.
  - simpl. rewrite list_elem_of_singleton. split.
    + intros ->. by exists "", "".
    + intros (before & after & H). destruct before; [|discriminate].
      by destruct h.
  - change (substrings (String c r))
      with (prefixes (String c r) ++ substrings r).
    rewrite elem_of_app, elem_of_prefixes, IH. split.
    + intros [[rest H] | (before & after & ->)].
      * by exists "", rest.
      * by exists (String c before), after.
    + intros (before & after & H). destruct before as [|c' before].
      * left. by exists after.
      * right. simpl in H. injection H as <- ->. by exists before, after.
Qed.

(** An array includes a string exactly when one of its elements is that
    string. *)
Lemma elem_of_included_array (elements : list JsValue) (h : string) :
  h ∈ omap stringOf elements <-> JsString h ∈ elements.
Proof.
  rewrite list_elem_of_omap. split.
  - intros (element & Hin & Hs). destruct element; simpl in Hs; by simplify_eq.
  - intros Hin. by exists (JsString h).
Qed.

End JsFacts.

(** ** The request helper and the pipeline *)

Module UploadFacts.
Import Upload.
Section WithPlatform.
Context {P : Platform}.

Lemma Outcome_bind_Returned {A B} (k : A -> Outcome B) (c : Outcome A) (b : B) :
  c ≫= k = Returned b -> exists a, c = Returned a /\ k a = Returned b.
Proof. destruct c as [a|e]; [eauto | discriminate]. Qed.

Lemma M_bind_Returned {A B} (k : A -> M B) (c : M A) s b s' :
  (c ≫= k) s = (Returned b, s') ->
  exists a s1, c s = (Returned a, s1) /\ k a s1 = (Returned b, s').
Proof.
  unfold mbind, M_bind. destruct (c s) as [[a|e] s1]; [eauto | discriminate].
Qed.

Lemma await_bind_Returned {A B} (k : A -> M B) (c : Outcome A) s b s' :
  (await c ≫= k) s = (Returned b, s') ->
  exists a, c = Returned a /\ k a s = (Returned b, s').
Proof.
  intros H. apply M_bind_Returned in H as (a & s1 & Hc & Hk).
  unfold await in Hc. simplify_eq. eauto.
Qed.

(** Whatever the answer, the helper sends exactly one request. *)
Lemma cfApiRequest_sends method url token body s :
  exists outcome remote',
    cfApiRequest method url token body s
    = (outcome, mkState remote' (sent s ++ [requestFor method url token body])).
Proof.
  unfold cfApiRequest, mbind, M_bind, doFetch.
  destruct (fetch _ _) as [[response|e] remote']; [|eauto].
  destruct (negb (Response.ok response)); [unfold throw; eauto|].
  unfold await; eauto.
Qed.

(** A call that returns was answered with a 2xx status, and what it returns
    is the [result] of the body. *)
Lemma cfApiRequest_Returned method url token body s result s' :
  cfApiRequest method url token body s = (Returned result, s') ->
  exists response remote',
    fetch (requestFor method url token body) (remote s) = (Returned response, remote')
    /\ Response.ok response = true
    /\ jsonResult response = Returned result
    /\ s' = mkState remote' (sent s ++ [requestFor method url token body]).
Proof.
  unfold cfApiRequest, mbind, M_bind, doFetch.
  destruct (fetch _ _) as [[response|e] remote'] eqn:Hfetch; [|discriminate].
  destruct (Response.ok response) eqn:Hok; simpl; [|discriminate].
  unfold await. intros [= Hres <-]. eauto 10.
Qed.

Lemma uploadBucket_Returned uploadsJwt bucket s u s' :
  uploadBucket uploadsJwt bucket s = (Returned u, s') ->
  exists payload,
    mapM toPayload (Bucket.files bucket) = Returned payload
    /\ sent s' = sent s ++ [uploadRequest uploadsJwt payload].
Proof.
  unfold uploadBucket. intros H.
  apply await_bind_Returned in H as (payload & Hpayload & H).
  apply M_bind_Returned in H as (result & s1 & H & Hret).
  unfold mret, M_ret in Hret. simplify_eq.
  apply cfApiRequest_Returned in H as (response & remote' & _ & _ & _ & ->).
  by exists payload.
Qed.

Lemma forEach_uploadBucket_Returned uploadsJwt buckets : forall s us s',
  forEach (uploadBucket uploadsJwt) buckets s = (Returned us, s') ->
  exists payloads,
    mapM (fun bucket => mapM toPayload (Bucket.files bucket)) buckets
    = Returned payloads
    /\ sent s' = sent s ++ map (uploadRequest uploadsJwt) payloads.
Proof.
  induction buckets as [|bucket rest IH]; intros s us s' H; simpl in H.
  - unfold mret, M_ret in H. simplify_eq. exists []. by rewrite app_nil_r.
  - destruct (uploadBucket uploadsJwt bucket s) as [[u|e] s1] eqn:Hbucket;
      destruct (forEach (uploadBucket uploadsJwt) rest s1) as [[us'|e'] s2] eqn:Hrest;
      simplify_eq.
    apply uploadBucket_Returned in Hbucket as (payload & Hpayload & Hsent1).
    apply IH in Hrest as (payloads & Hpayloads & Hsent2).
    exists (payload :: payloads). split.
    + simpl. rewrite Hpayload. simpl. by rewrite Hpayloads.
    + rewrite Hsent2, Hsent1. simpl. by rewrite <- app_assoc.
Qed.

Lemma upload_split cfToken directory accountId projectName gitData s :
  upload cfToken directory accountId projectName gitData s
  = match syncAssets cfToken directory accountId projectName s with
    | (Returned files, s1) =>
        createDeployment cfToken accountId projectName
          (deploymentForm files gitData directory) s1
    | (Thrown e, s1) => (Thrown e, s1)
    end.
Proof.
  unfold upload, syncAssets, createDeployment, mbind, M_bind.
  repeat case_match; simplify_eq; try done.
  all: unfold mret, M_ret in *; by simplify_eq.
Qed.

(** The requests of a run of [syncAssets] that returns. *)
Lemma syncAssets_Returned cfToken directory accountId projectName s files s1 :
  syncAssets cfToken directory accountId projectName s = (Returned files, s1) ->
  exists uploadsJwt missingHashes payloads,
    findUploadableFiles directory = Returned files
    /\ answered cfToken accountId projectName files (remote s) uploadsJwt missingHashes
    /\ mapM (fun bucket => mapM toPayload (Bucket.files bucket))
         (List.filter nonEmpty
            (Packer.uploadBuckets (filesToUpload files missingHashes)))
       = Returned payloads
    /\ forall gitData,
         sent s1 ++ [requestFor "POST"
                       (projectUrl accountId projectName +:+ "/deployments") cfToken
                       (FormDataObject (deploymentForm files gitData directory))]
         = sent s ++ requestsOfRun cfToken directory accountId projectName gitData
                       files uploadsJwt payloads.
Proof.
  unfold syncAssets. intros H.
  apply await_bind_Returned in H as (files' & Hscan & H).
  apply M_bind_Returned in H as (tokenResult & s2 & Htoken & H).
  apply await_bind_Returned in H as (uploadsJwt & Hjwt & H).
  apply M_bind_Returned in H as (checkResult & s3 & Hcheck & H).
  apply await_bind_Returned in H as (missingHashes & Hmissing & H).
  apply M_bind_Returned in H as (us & s4 & Hbuckets & H).
  apply M_bind_Returned in H as (u & s5 & Hupsert & H).
  unfold mret, M_ret in H. simplify_eq.
  apply cfApiRequest_Returned in Htoken as (r1 & w1 & Hfetch1 & _ & Hresult1 & ->).
  apply cfApiRequest_Returned in Hcheck as (r2 & w2 & Hfetch2 & _ & Hresult2 & ->).
  apply forEach_uploadBucket_Returned in Hbuckets as (payloads & Hpayloads & Hsent4).
  apply cfApiRequest_Returned in Hupsert as (r5 & w5 & _ & _ & _ & ->).
  exists uploadsJwt, missingHashes, payloads.
  split; [done|]. split; [by exists r1, w1, tokenResult, r2, w2, checkResult|].
  split; [done|].
  intros gitData. simpl in *. rewrite Hsent4. unfold requestsOfRun. simpl.
  by rewrite <- !app_assoc.
Qed.

(** *** Selection, sorting and payloads *)

Lemma insertBySize_Permutation a sorted : insertBySize a sorted ≡ₚ a :: sorted.
Proof.
  induction sorted as [|b rest IH]; simpl; [done|].
  case_match; [done|]. rewrite IH. apply perm_swap.
Qed.

Lemma sortBySizeDescending_Permutation files : sortBySizeDescending files ≡ₚ files.
Proof.
  induction files as [|a rest IH]; simpl; [done|].
  by rewrite insertBySize_Permutation, IH.
Qed.

Lemma nonEmpty_files buckets :
  flat_map Bucket.files (List.filter nonEmpty buckets)
  = flat_map Bucket.files buckets.
Proof.
  induction buckets as [|b rest IH]; simpl; [done|].
  unfold nonEmpty at 1. destruct (Bucket.files b) as [|f fs] eqn:Hb; simpl.
  - done.
  - by rewrite Hb, IH.
Qed.

(** The files handed to the uploader are the scanned files whose hash was
    reported missing, each as often as it was scanned. *)
Lemma uploaded_files files missingHashes :
  flat_map Bucket.files
    (List.filter nonEmpty (Packer.uploadBuckets (filesToUpload files missingHashes)))
  ≡ₚ List.filter (isMissing missingHashes) files.
Proof.
  rewrite nonEmpty_files, PackerFacts.uploadBuckets_files.
  apply sortBySizeDescending_Permutation.
Qed.

Lemma mapM_Outcome_app {A B} (f : A -> Outcome B) l1 l2 r1 r2 :
  mapM f l1 = Returned r1 -> mapM f l2 = Returned r2 ->
  mapM f (l1 ++ l2) = Returned (r1 ++ r2).
Proof.
  revert r1. induction l1 as [|x l1 IH]; intros r1 H1 H2; simpl in *.
  - unfold mret, Outcome_ret in *. by simplify_eq.
  - apply Outcome_bind_Returned in H1 as (y & Hy & H1).
    apply Outcome_bind_Returned in H1 as (ys & Hys & H1).
    unfold mret, Outcome_ret in H1. simplify_eq.
    rewrite Hy. simpl. by rewrite (IH ys).
Qed.

Lemma mapM_flat_map {A B C} (f : B -> Outcome C) (g : A -> list B) l : forall rs,
  mapM (fun a => mapM f (g a)) l = Returned rs ->
  mapM f (flat_map g l) = Returned (concat rs).
Proof.
  induction l as [|a l IH]; intros rs H; simpl in *.
  - unfold mret, Outcome_ret in *. by simplify_eq.
  - apply Outcome_bind_Returned in H as (r & Hr & H).
    apply Outcome_bind_Returned in H as (rs' & Hrs & H).
    unfold mret, Outcome_ret in H. simplify_eq. simpl.
    apply mapM_Outcome_app; [done | by apply IH].
Qed.

(** Each payload entry carries the hash of its file as storage key. *)
Lemma toPayload_keys files : forall payload,
  mapM toPayload files = Returned payload ->
  map UploadFileGroupPayload.key payload = map UploadableFile.hash files.
Proof.
  induction files as [|file rest IH]; intros payload H; simpl in *.
  - unfold mret, Outcome_ret in *. by simplify_eq.
  - apply Outcome_bind_Returned in H as (entry & Hentry & H).
    apply Outcome_bind_Returned in H as (entries & Hentries & H).
    unfold mret, Outcome_ret in H. simplify_eq. simpl.
    rewrite (IH entries Hentries). f_equal.
    unfold toPayload in Hentry.
    apply Outcome_bind_Returned in Hentry as (contents & _ & Hentry).
    unfold mret, Outcome_ret in Hentry. by simplify_eq.
Qed.

Lemma payloadOf_uploadRequests uploadsJwt payloads :
  flat_map payloadOf (map (uploadRequest uploadsJwt) payloads) = concat payloads.
Proof. induction payloads as [|p ps IH]; simpl; [done|]. by rewrite IH. Qed.

Lemma payloadOf_requestsOfRun cfToken directory accountId projectName gitData
    files uploadsJwt payloads :
  flat_map payloadOf
    (requestsOfRun cfToken directory accountId projectName gitData files
       uploadsJwt payloads)
  = concat payloads.
Proof.
  unfold requestsOfRun. rewrite !flat_map_app, payloadOf_uploadRequests.
  simpl. by rewrite app_nil_r.
Qed.

(** *** The manifest *)

Lemma fold_put_other entries : forall (obj : gmap string string) key,
  key ∉ map fst entries -> fold_left put entries obj !! key = obj !! key.
Proof.
  induction entries as [|[k v] rest IH]; intros obj key Hkey; simpl; [done|].
  simpl in Hkey. apply not_elem_of_cons in Hkey as [Hne Hrest].
  rewrite IH by done. unfold put. simpl. by rewrite lookup_insert_ne.
Qed.

Lemma fold_put_is_Some entries : forall (obj : gmap string string) key,
  key ∈ map fst entries -> is_Some (fold_left put entries obj !! key).
Proof.
  induction entries as [|[k v] rest IH]; intros obj key Hkey; simpl in *.
  - by apply elem_of_nil in Hkey.
  - destruct (decide (key ∈ map fst rest)) as [Hin|Hout]; [by apply IH|].
    apply elem_of_cons in Hkey as [->|?]; [|done].
    rewrite fold_put_other by done. unfold put. simpl.
    rewrite lookup_insert_eq. eauto.
Qed.

Lemma fold_put_unique entries : forall (obj : gmap string string) key value,
  NoDup (map fst entries) -> (key, value) ∈ entries ->
  fold_left put entries obj !! key = Some value.
Proof.
  induction entries as [|[k v] rest IH]; intros obj key value Hnodup Hin; simpl in *.
  - by apply elem_of_nil in Hin.
  - apply NoDup_cons in Hnodup as [Hk Hnodup].
    apply elem_of_cons in Hin as [[= -> ->]|Hin]; [|by apply IH].
    rewrite fold_put_other by done. unfold put. simpl.
    by rewrite lookup_insert_eq.
Qed.

Lemma fold_put_origin entries : forall (obj : gmap string string) key,
  is_Some (fold_left put entries obj !! key) ->
  key ∈ map fst entries \/ is_Some (obj !! key).
Proof.
  induction entries as [|[k v] rest IH]; intros obj key H; simpl in *; [by right|].
  apply IH in H as [H|H]; [left; by right|].
  unfold put in H. simpl in H.
  destruct (decide (k = key)) as [->|Hne]; [left; by left|].
  rewrite lookup_insert_ne in H by done. by right.
Qed.

Lemma fold_put_size entries : forall (obj : gmap string string),
  NoDup (map fst entries) ->
  (forall key, key ∈ map fst entries -> obj !! key = None) ->
  size (fold_left put entries obj) = (size obj + length entries)%nat.
Proof.
  induction entries as [|[k v] rest IH]; intros obj Hnodup Hfresh; simpl in *.
  - lia.
  - apply NoDup_cons in Hnodup as [Hk Hnodup].
    rewrite IH; [| done |].
    + unfold put. simpl. rewrite map_size_insert_None; [lia|].
      apply Hfresh. by left.
    + intros key Hkey. unfold put. simpl.
      rewrite lookup_insert_ne; [apply Hfresh; by right|].
      intros ->. done.
Qed.

Lemma manifest_is_Some files file :
  file ∈ files -> is_Some (manifest files !! UploadableFile.publicUrl file).
Proof.
  intros Hin. unfold manifest, fromEntries. apply (fold_put_is_Some _ ∅).
  rewrite map_map. simpl.
  apply list_elem_of_In, in_map, list_elem_of_In, Hin.
Qed.

Lemma manifest_lookup files file :
  NoDup (map UploadableFile.publicUrl files) -> file ∈ files ->
  manifest files !! UploadableFile.publicUrl file = Some (UploadableFile.hash file).
Proof.
  intros Hnodup Hin. unfold manifest, fromEntries. apply (fold_put_unique _ ∅).
  - by rewrite map_map.
  - apply list_elem_of_In.
    apply (in_map (fun f => (UploadableFile.publicUrl f, UploadableFile.hash f))).
    by apply list_elem_of_In.
Qed.

Lemma manifest_size files :
  NoDup (map UploadableFile.publicUrl files) ->
  size (manifest files) = length files.
Proof.
  intros Hnodup. unfold manifest, fromEntries.
  rewrite (fold_put_size _ ∅).
  - by rewrite map_size_empty, length_map.
  - by rewrite map_map.
  - intros. apply lookup_empty.
Qed.

Lemma manifest_origin files key :
  is_Some (manifest files !! key) ->
  exists file, file ∈ files /\ UploadableFile.publicUrl file = key.
Proof.
  intros H. unfold manifest, fromEntries in H.
  apply (fold_put_origin _ ∅) in H as [H|H].
  - rewrite map_map in H. simpl in H.
    apply list_elem_of_In, in_map_iff in H as (file & Hkey & Hin).
    exists file. split; [by apply list_elem_of_In | done].
  - rewrite lookup_empty in H. by destruct H.
Qed.

Lemma attachOptional_extends directory name formData :
  exists extra, attachOptional directory name formData = formData ++ extra.
Proof.
  unfold attachOptional. destruct (readFile _); [eauto|].
  exists []. by rewrite app_nil_r.
Qed.

Lemma manifestOf_deployment method url token files gitData directory :
  manifestOf (requestFor method url token
                (FormDataObject (deploymentForm files gitData directory)))
  = Some (manifest files).
Proof.
  unfold manifestOf, deploymentForm. simpl.
  destruct (attachOptional_extends directory "_redirects"
    [ ("manifest", FormJson (manifest files));
      ("branch", FormString (branch gitData));
      ("commit_hash", FormString (commit gitData));
      ("commit_message", FormString (commitMessage gitData));
      ("commit_dirty", FormString "false") ]) as [extra1 ->].
  destruct (attachOptional_extends directory "_headers"
    ([ ("manifest", FormJson (manifest files));
      ("branch", FormString (branch gitData));
      ("commit_hash", FormString (commit gitData));
      ("commit_message", FormString (commitMessage gitData));
      ("commit_dirty", FormString "false") ] ++ extra1)) as [extra2 ->].
  done.
Qed.

(** *** Counting copies *)

Lemma filter_length_Permutation {A} (p : A -> bool) l1 l2 :
  l1 ≡ₚ l2 -> length (List.filter p l1) = length (List.filter p l2).
Proof.
  induction 1 as [|x l1 l2 _ IH|x y l|l1 l2 l3 _ IH1 _ IH2]; simpl.
  - done.
  - destruct (p x); simpl; by rewrite IH.
  - by destruct (p x), (p y).
  - by rewrite IH1.
Qed.

Lemma filter_one {A} (p : A -> bool) l x :
  x ∈ l -> p x = true -> (1 <= length (List.filter p l))%nat.
Proof.
  induction 1 as [x l|x y l _ IH]; intros Hp; simpl.
  - rewrite Hp. simpl. lia.
  - specialize (IH Hp). destruct (p y); simpl; lia.
Qed.

Lemma filter_two {A} (p : A -> bool) l : forall i j x y,
  i <> j -> l !! i = Some x -> l !! j = Some y -> p x = true -> p y = true ->
  (2 <= length (List.filter p l))%nat.
Proof.
  induction l as [|a l IH]; intros i j x y Hij Hi Hj Hx Hy; [done|].
  destruct i as [|i], j as [|j]; simplify_eq/=.
  - rewrite Hx. simpl.
    pose proof (filter_one p l y (list_elem_of_lookup_2 _ _ _ Hj) Hy). lia.
  - rewrite Hy. simpl.
    pose proof (filter_one p l x (list_elem_of_lookup_2 _ _ _ Hi) Hx). lia.
  - assert (i <> j) as Hij' by congruence.
    specialize (IH i j x y Hij' Hi Hj Hx Hy). destruct (p a); simpl; lia.
Qed.

Lemma filter_filter_length {A} (p q : A -> bool) l :
  length (List.filter p (List.filter q l))
  = length (List.filter (fun x => q x && p x) l).
Proof.
  induction l as [|a l IH]; simpl; [done|].
  destruct (q a); simpl; [|done]. destruct (p a); simpl; by rewrite IH.
Qed.

Lemma occurrences_hashes key files :
  occurrences key (map UploadableFile.hash files)
  = length (List.filter (fun f => String.eqb key (UploadableFile.hash f)) files).
Proof.
  unfold occurrences. induction files as [|f rest IH]; simpl; [done|].
  destruct (String.eqb key (UploadableFile.hash f)); simpl; by rewrite IH.
Qed.

Lemma occurrences_Permutation key keys1 keys2 :
  keys1 ≡ₚ keys2 -> occurrences key keys1 = occurrences key keys2.
Proof. apply filter_length_Permutation. Qed.

(** Two scanned files with one missing hash are both among the files to
    upload. *)
Lemma both_copies_selected files missingHashes i j f1 f2 :
  i <> j -> files !! i = Some f1 -> files !! j = Some f2 ->
  UploadableFile.hash f1 = UploadableFile.hash f2 ->
  UploadableFile.hash f1 ∈ missingHashes ->
  (2 <= occurrences (UploadableFile.hash f1)
          (map UploadableFile.hash (filesToUpload files missingHashes)))%nat.
Proof.
  intros Hij Hi Hj Hsame Hmissing.
  rewrite occurrences_hashes. unfold filesToUpload.
  rewrite (filter_length_Permutation _ _ _
             (sortBySizeDescending_Permutation _)).
  rewrite filter_filter_length.
  apply (filter_two _ files i j f1 f2 Hij Hi Hj).
  - unfold isMissing. rewrite bool_decide_eq_true_2 by done.
    simpl. apply String.eqb_refl.
  - unfold isMissing. rewrite <- Hsame, bool_decide_eq_true_2 by done.
    simpl. apply String.eqb_refl.
Qed.

(** The filter of line 90, with its test written out. *)
Lemma filter_isMissing missingHashes files :
  List.filter (isMissing missingHashes) files
  = filter (fun file => UploadableFile.hash file ∈ missingHashes) files.
Proof.
  induction files as [|a rest IH]; [done|].
  simpl. rewrite filter_cons. unfold isMissing at 1.
  case_bool_decide; case_decide; try done; by rewrite IH.
Qed.

Lemma list_elem_of_filter_iff (missingHashes : list string)
    (files : list UploadableFile.t) file :
  file ∈ filter (fun file => UploadableFile.hash file ∈ missingHashes) files
  <-> file ∈ files /\ UploadableFile.hash file ∈ missingHashes.
Proof. rewrite list_elem_of_filter. tauto. Qed.

(** *** A run of [upload] that returns *)

Lemma upload_Returned cfToken directory accountId projectName gitData s d s' :
  upload cfToken directory accountId projectName gitData s = (Returned d, s') ->
  exists files uploadsJwt missingHashes payloads,
    findUploadableFiles directory = Returned files
    /\ answered cfToken accountId projectName files (remote s) uploadsJwt missingHashes
    /\ mapM (fun bucket => mapM toPayload (Bucket.files bucket))
         (List.filter nonEmpty
            (Packer.uploadBuckets (filesToUpload files missingHashes)))
       = Returned payloads
    /\ sent s' = sent s ++ requestsOfRun cfToken directory accountId projectName
                             gitData files uploadsJwt payloads.
Proof.
  rewrite upload_split.
  destruct (syncAssets cfToken directory accountId projectName s)
    as [[files|e] s1] eqn:Hsync; [|discriminate].
  intros Hdeploy. unfold createDeployment in Hdeploy.
  apply cfApiRequest_Returned in Hdeploy as (r & w & _ & _ & _ & ->).
  apply syncAssets_Returned in Hsync
    as (jwt & missing & payloads & Hscan & Hanswered & Hpay & Hsent).
  exists files, jwt, missing, payloads.
  split; [done|]. split; [done|]. split; [done|]. simpl. apply Hsent.
Qed.

(** The keys a returning run transmits are the hashes of the files in its
    non-empty buckets, bucket by bucket. *)
Lemma transmitted_by_run cfToken directory accountId projectName gitData files
    uploadsJwt missingHashes payloads :
  mapM (fun bucket => mapM toPayload (Bucket.files bucket))
    (List.filter nonEmpty (Packer.uploadBuckets (filesToUpload files missingHashes)))
  = Returned payloads ->
  let uploaded :=
    flat_map Bucket.files
      (List.filter nonEmpty
         (Packer.uploadBuckets (filesToUpload files missingHashes))) in
  let requests :=
    requestsOfRun cfToken directory accountId projectName gitData files
      uploadsJwt payloads in
  mapM toPayload uploaded = Returned (flat_map payloadOf requests)
  /\ transmittedKeys requests = map UploadableFile.hash uploaded.
Proof.
  intros Hpayloads uploaded requests.
  assert (mapM toPayload uploaded = Returned (flat_map payloadOf requests)) as H.
  { unfold requests. rewrite payloadOf_requestsOfRun.
    by apply (mapM_flat_map toPayload Bucket.files). }
  split; [done|]. unfold transmittedKeys. by apply toPayload_keys.
Qed.

End WithPlatform.
End UploadFacts.

(** ** Encodings *)

Module EncodingFacts.
Import Encoding.

Lemma hex_length bytes : String.length (hex bytes) = (2 * length bytes)%nat.
Proof. induction bytes as [|b rest IH]; simpl; [done|]. rewrite IH. lia. Qed.

Lemma unhexByte_hex (b : byte) :
  unhexByte (hexDigit (N.shiftr (Byte.to_N b) 4)) (hexDigit (N.land (Byte.to_N b) 15))
  = Some b.
Proof. destruct b; reflexivity. Qed.

(** Distinct digests have distinct hexadecimal spellings. *)
Lemma hex_inj bytes1 : forall bytes2, hex bytes1 = hex bytes2 -> bytes1 = bytes2.
Proof.
  induction bytes1 as [|a rest IH]; intros [|b rest'] H; simpl in H;
    try discriminate; [done|].
  injection H as Hhigh Hlow Hrest. f_equal; [|by apply IH].
  apply (inj Some). by rewrite <- (unhexByte_hex a), <- (unhexByte_hex b), Hhigh, Hlow.
Qed.

Lemma append_inj_r (s t1 t2 : string) : s +:+ t1 = s +:+ t2 -> t1 = t2.
Proof. induction s as [|c s IH]; simpl; intros H; [done|]. injection H. auto. Qed.

End EncodingFacts.

(** ** Scanner, request helper and deployment *)

Module UploadTheorems.
Import Upload UploadFacts.
Section WithPlatform.
Context {P : Platform}.

(** C8. Whatever the request (any method, path, token and body, so each of
    project info, upload token, check-missing, upload, upsert-hashes and
    create-deployment), when the response has a status outside 200-299 the
    request helper returns no result: it throws an error whose message is
    [Cloudflare API request failed with status <status>: <body text>]. *)
Theorem non_2xx_response_is_fatal
    (method url token : string) (body : BodyArg) (s : State)
    (response : Response.t) (remote' : World) :
  fetch (requestFor method url token body) (remote s) = (Returned response, remote') ->
  ~ (200 <= Response.status response <= 299) ->
  cfApiRequest method url token body s
  = (Thrown (ApiError ("Cloudflare API request failed with status "
                       +:+ pretty (Response.status response)
                       +:+ ": " +:+ Response.text response)),
     mkState remote' (sent s ++ [requestFor method url token body])).
Proof.
  intros Hfetch Hstatus.
  unfold cfApiRequest, mbind, M_bind, doFetch. rewrite Hfetch.
  assert (Response.ok response = false) as ->.
  { unfold Response.ok. apply andb_false_iff.
    destruct (Z.leb_spec 200 (Response.status response)); [right|by left].
    apply Z.leb_gt. lia. }
  done.
Qed.

(** C9. When reading [_redirects] or [_headers] from the scanned directory
    fails, with whatever error, the form has no field of that name and the
    run goes on: once the assets are synchronised, the outcome of [upload]
    is the outcome of the create-deployment call with that form, and the
    call sends its request. *)
Theorem control_file_errors_are_swallowed
    (cfToken directory accountId projectName : string) (gitData : GitData)
    (name : string) (e : Exception) (s s1 : State)
    (files : list UploadableFile.t) :
  name = "_redirects" \/ name = "_headers" ->
  readFile (join directory name) = Thrown e ->
  syncAssets cfToken directory accountId projectName s = (Returned files, s1) ->
  let formData := deploymentForm files gitData directory in
  (name ∉ map fst formData)
  /\ upload cfToken directory accountId projectName gitData s
     = createDeployment cfToken accountId projectName formData s1
  /\ exists outcome remote',
       upload cfToken directory accountId projectName gitData s
       = (outcome,
          mkState remote'
            (sent s1 ++
             [requestFor "POST" (projectUrl accountId projectName +:+ "/deployments")
                cfToken (FormDataObject formData)])).
Proof.
  intros Hname Hread Hsync formData.
  assert (upload cfToken directory accountId projectName gitData s
          = createDeployment cfToken accountId projectName formData s1) as Hsplit.
  { rewrite upload_split, Hsync. done. }
  split; [|split; [done|]].
  - unfold formData, deploymentForm, attachOptional.
    destruct Hname as [-> | ->]; rewrite Hread.
    + destruct (readFile (join directory "_headers")); simpl; intros Hin;
        repeat (apply elem_of_cons in Hin as [Hin|Hin]; [discriminate|]);
        by apply elem_of_nil in Hin.
    + destruct (readFile (join directory "_redirects")); simpl; intros Hin;
        repeat (apply elem_of_cons in Hin as [Hin|Hin]; [discriminate|]);
        by apply elem_of_nil in Hin.
  - rewrite Hsplit. unfold createDeployment. apply cfApiRequest_sends.
Qed.

(** C7. The records the scanner returns are built, one each and in order,
    from the directory entries that are regular files and whose name is not
    one of [_worker.js], [_redirects], [_headers], [_routes.json]; the
    test reads the entry's name only, not its directory, so an entry with
    such a name yields no record at any depth.  Every file of every bucket
    and every key of the manifest comes from one of these records. *)
Theorem reserved_names_are_not_scanned (dir : string)
    (files : list UploadableFile.t) :
  findUploadableFiles dir = Returned files ->
  exists dirEntries,
    readdir (resolve [dir]) = Returned dirEntries
    /\ Forall2 (fun entry file => describe (resolve [dir]) entry = Returned file)
         (List.filter uploadable dirEntries) files
    /\ (forall entry, entry ∈ List.filter uploadable dirEntries ->
          entry ∈ dirEntries /\ Dirent.isFile entry = true
          /\ Dirent.name entry ∉ ["_worker.js"; "_redirects"; "_headers"; "_routes.json"])
    /\ (forall entry,
          Dirent.name entry ∈ ["_worker.js"; "_redirects"; "_headers"; "_routes.json"] ->
          entry ∉ List.filter uploadable dirEntries)
    /\ (forall missingHashes bucket file,
          bucket ∈ Packer.uploadBuckets (filesToUpload files missingHashes) ->
          file ∈ Bucket.files bucket -> file ∈ files)
    /\ (forall key, is_Some (manifest files !! key) ->
          exists file, file ∈ files /\ UploadableFile.publicUrl file = key).
Proof.
  unfold findUploadableFiles. intros H.
  apply Outcome_bind_Returned in H as (dirEntries & Hreaddir & Hmap).
  exists dirEntries. split; [done|].
  assert (forall entry, uploadable entry = true ->
            Dirent.isFile entry = true
            /\ Dirent.name entry ∉ ["_worker.js"; "_redirects"; "_headers"; "_routes.json"])
    as Hpass.
  { intros entry Hu. unfold uploadable in Hu.
    apply andb_true_iff in Hu as [Hfile Hname]. split; [done|].
    apply negb_true_iff, bool_decide_eq_false in Hname.
    unfold ignoredFiles in Hname. intros Hin. apply Hname.
    rewrite !elem_of_cons, elem_of_nil in Hin.
    rewrite !elem_of_union, !elem_of_singleton. tauto. }
  split; [|split; [|split; [|split]]].
  - revert files Hmap.
    induction (List.filter uploadable dirEntries) as [|entry rest IH];
      intros files Hmap; simpl in Hmap.
    + unfold mret, Outcome_ret in Hmap. simplify_eq. constructor.
    + apply Outcome_bind_Returned in Hmap as (file & Hfile & Hmap).
      apply Outcome_bind_Returned in Hmap as (files' & Hrest & Hmap).
      unfold mret, Outcome_ret in Hmap. simplify_eq.
      constructor; [done | by apply IH].
  - intros entry Hin. apply list_elem_of_In, filter_In in Hin as [Hin Hu].
    split; [by apply list_elem_of_In | by apply Hpass].
  - intros entry Hname Hin.
    apply list_elem_of_In, filter_In in Hin as [_ Hu].
    apply Hpass in Hu as [_ Hu]. done.
  - intros missingHashes bucket file Hbucket Hfile.
    assert (file ∈ flat_map Bucket.files
                     (Packer.uploadBuckets (filesToUpload files missingHashes))) as Hin.
    { apply list_elem_of_In, in_flat_map. exists bucket.
      split; by apply list_elem_of_In. }
    rewrite PackerFacts.uploadBuckets_files in Hin. unfold filesToUpload in Hin.
    rewrite sortBySizeDescending_Permutation in Hin.
    apply list_elem_of_In, filter_In in Hin as [Hin _]. by apply list_elem_of_In.
  - apply manifest_origin.
Qed.

(** The record the scanner builds for an entry: its hash is the fingerprint
    of the bytes read at its absolute path. *)
Lemma describe_Returned resolvedDir entry file :
  describe resolvedDir entry = Returned file ->
  exists contents,
    readFile (UploadableFile.absolutePath file) = Returned contents
    /\ UploadableFile.hash file
       = fingerprint contents (UploadableFile.absolutePath file).
Proof.
  unfold describe. intros H.
  apply Outcome_bind_Returned in H as (size & _ & H).
  apply Outcome_bind_Returned in H as (contents & Hread & H).
  unfold mret, Outcome_ret in H. simplify_eq. simpl. eauto.
Qed.

(** C4. With a hash function that returns as many bytes as it is asked for,
    the fingerprint the scanner gives a file is the hexadecimal spelling, 32
    characters long, of the 16-byte hash of its base64-encoded bytes followed
    by its extension without the dot.  It depends on nothing else: two
    files, wherever they are, with the same bytes and the same extension have
    the same fingerprint. *)
Theorem fingerprint_of_bytes_and_extension
    (dir1 dir2 : string) (entry1 entry2 : Dirent.t) (f1 f2 : UploadableFile.t) :
  (forall data, length (blake3 data 16) = 16%nat) ->
  describe dir1 entry1 = Returned f1 ->
  describe dir2 entry2 = Returned f2 ->
  exists c1 c2,
    readFile (UploadableFile.absolutePath f1) = Returned c1
    /\ readFile (UploadableFile.absolutePath f2) = Returned c2
    /\ UploadableFile.hash f1
       = Encoding.hex (blake3 (Encoding.base64 c1 +:+
           Encoding.slice1 (extname (UploadableFile.absolutePath f1))) 16)
    /\ UploadableFile.hash f2
       = Encoding.hex (blake3 (Encoding.base64 c2 +:+
           Encoding.slice1 (extname (UploadableFile.absolutePath f2))) 16)
    /\ String.length (UploadableFile.hash f1) = 32%nat
    /\ String.length (UploadableFile.hash f2) = 32%nat
    /\ (c1 = c2 ->
        Encoding.slice1 (extname (UploadableFile.absolutePath f1))
        = Encoding.slice1 (extname (UploadableFile.absolutePath f2)) ->
        UploadableFile.hash f1 = UploadableFile.hash f2).
Proof.
  intros Hlen H1 H2.
  apply describe_Returned in H1 as (c1 & Hread1 & Hhash1).
  apply describe_Returned in H2 as (c2 & Hread2 & Hhash2).
  exists c1, c2. unfold fingerprint, hashData in *.
  repeat split; try done.
  - by rewrite Hhash1, EncodingFacts.hex_length, Hlen.
  - by rewrite Hhash2, EncodingFacts.hex_length, Hlen.
  - intros -> Hext. by rewrite Hhash1, Hhash2, Hext.
Qed.

(** C5. Two files with the same bytes and different extensions (the
    extension as it is hashed, without its dot) have different hashed
    material, and, when the hash function does not collide on these two
    strings, different fingerprints. *)
Theorem different_extension_different_fingerprint
    (dir1 dir2 : string) (entry1 entry2 : Dirent.t) (f1 f2 : UploadableFile.t)
    (contents : list byte) :
  describe dir1 entry1 = Returned f1 ->
  describe dir2 entry2 = Returned f2 ->
  readFile (UploadableFile.absolutePath f1) = Returned contents ->
  readFile (UploadableFile.absolutePath f2) = Returned contents ->
  Encoding.slice1 (extname (UploadableFile.absolutePath f1))
  <> Encoding.slice1 (extname (UploadableFile.absolutePath f2)) ->
  let data1 := hashData contents (UploadableFile.absolutePath f1) in
  let data2 := hashData contents (UploadableFile.absolutePath f2) in
  (data1 <> data2 -> blake3 data1 16 <> blake3 data2 16) ->
  data1 <> data2 /\ UploadableFile.hash f1 <> UploadableFile.hash f2.
Proof.
  intros H1 H2 Hread1 Hread2 Hext data1 data2 Hfree.
  apply describe_Returned in H1 as (c1 & Hread1' & Hhash1).
  apply describe_Returned in H2 as (c2 & Hread2' & Hhash2).
  assert (c1 = contents) as -> by congruence.
  assert (c2 = contents) as -> by congruence.
  assert (data1 <> data2) as Hdata.
  { unfold data1, data2, hashData. intros Heq.
    by apply EncodingFacts.append_inj_r in Heq. }
  split; [done|].
  rewrite Hhash1, Hhash2. unfold fingerprint. intros Heq.
  apply EncodingFacts.hex_inj in Heq. by apply Hfree.
Qed.

(** C6. In a run of [upload] that returns, the remote store has answered
    the check-missing request with a list of missing fingerprints; the files
    transmitted are the scanned files whose fingerprint is in that list,
    each once per scanned copy, and no key of a scanned file outside the
    list is transmitted.  The last request is the create-deployment call,
    and the manifest in its form is built from every scanned file, uploaded
    or not: each scanned public path is a key of it, and, public paths being
    distinct, it has as many entries as files were scanned and maps each
    path to that file's fingerprint. *)
Theorem manifest_lists_every_scanned_file
    (cfToken directory accountId projectName : string) (gitData : GitData)
    (s s' : State) (d : Deployment) :
  upload cfToken directory accountId projectName gitData s = (Returned d, s') ->
  exists files uploadsJwt missingHashes earlier deploy uploaded,
    findUploadableFiles directory = Returned files
    /\ (exists tokenResponse world1 tokenResult checkResponse world2 checkResult,
          fetch (requestFor "GET"
                   (projectUrl accountId projectName +:+ "/upload-token")
                   cfToken Undefined) (remote s)
          = (Returned tokenResponse, world1)
          /\ jsonResult tokenResponse = Returned tokenResult
          /\ uploadsJwtOf tokenResult = Returned uploadsJwt
          /\ fetch (requestFor "POST" "/pages/assets/check-missing" uploadsJwt
                      (HashesObject (map UploadableFile.hash files))) world1
             = (Returned checkResponse, world2)
          /\ jsonResult checkResponse = Returned checkResult
          /\ missingHashesOf files checkResult = Returned missingHashes)
    /\ sent s' = sent s ++ earlier ++ [deploy]
    /\ (forall file,
          file ∈ uploaded
          <-> file ∈ files /\ UploadableFile.hash file ∈ missingHashes)
    /\ uploaded
       ≡ₚ filter (fun file => UploadableFile.hash file ∈ missingHashes) files
    /\ mapM toPayload uploaded = Returned (flat_map payloadOf (earlier ++ [deploy]))
    /\ transmittedKeys (earlier ++ [deploy]) = map UploadableFile.hash uploaded
    /\ (forall key,
          key ∈ transmittedKeys (earlier ++ [deploy])
          <-> key ∈ missingHashes
              /\ exists file, file ∈ files /\ UploadableFile.hash file = key)
    /\ manifestOf deploy = Some (manifest files)
    /\ (forall file, file ∈ files ->
          is_Some (manifest files !! UploadableFile.publicUrl file))
    /\ (NoDup (map UploadableFile.publicUrl files) ->
        size (manifest files) = length files
        /\ forall file, file ∈ files ->
             manifest files !! UploadableFile.publicUrl file
             = Some (UploadableFile.hash file)).
Proof.
  intros Hrun.
  apply upload_Returned in Hrun
    as (files & jwt & missing & payloads & Hscan & Hanswered & Hpay & Hsent).
  destruct (transmitted_by_run cfToken directory accountId projectName gitData
              files jwt missing payloads Hpay) as [Hentries Hkeys].
  exists files, jwt, missing.
  exists ([ requestFor "GET" (projectUrl accountId projectName +:+ "/upload-token")
              cfToken Undefined;
            requestFor "POST" "/pages/assets/check-missing" jwt
              (HashesObject (map UploadableFile.hash files)) ]
          ++ map (uploadRequest jwt) payloads
          ++ [ requestFor "POST" "/pages/assets/upsert-hashes" jwt
                 (HashesObject (map UploadableFile.hash files)) ]).
  exists (requestFor "POST" (projectUrl accountId projectName +:+ "/deployments")
            cfToken (FormDataObject (deploymentForm files gitData directory))).
  exists (flat_map Bucket.files
            (List.filter nonEmpty
               (Packer.uploadBuckets (filesToUpload files missing)))).
  assert (requestsOfRun cfToken directory accountId projectName gitData files jwt
            payloads
          = ([ requestFor "GET" (projectUrl accountId projectName +:+ "/upload-token")
                 cfToken Undefined;
               requestFor "POST" "/pages/assets/check-missing" jwt
                 (HashesObject (map UploadableFile.hash files)) ]
             ++ map (uploadRequest jwt) payloads
             ++ [ requestFor "POST" "/pages/assets/upsert-hashes" jwt
                    (HashesObject (map UploadableFile.hash files)) ])
            ++ [ requestFor "POST"
                   (projectUrl accountId projectName +:+ "/deployments") cfToken
                   (FormDataObject (deploymentForm files gitData directory)) ])
    as Hshape.
  { unfold requestsOfRun. simpl. by rewrite <- !app_assoc. }
  rewrite <- Hshape.
  pose proof (uploaded_files files missing) as Hperm.
  rewrite filter_isMissing in Hperm.
  assert (forall file,
            file ∈ flat_map Bucket.files
                     (List.filter nonEmpty
                        (Packer.uploadBuckets (filesToUpload files missing)))
            <-> file ∈ files /\ UploadableFile.hash file ∈ missing) as Hiff.
  { intros file. rewrite Hperm. apply list_elem_of_filter_iff. }
  split; [done|]. split; [done|]. split; [done|].
  split; [done|]. split; [done|]. split; [done|]. split; [done|].
  split.
  { intros key. rewrite Hkeys. change (map UploadableFile.hash ?l)
      with (UploadableFile.hash <$> l). rewrite list_elem_of_fmap. split.
    - intros (file & -> & Hin). apply Hiff in Hin as [Hin Hmissing]. eauto.
    - intros (Hmissing & file & Hin & <-). exists file. split; [done|].
      by apply Hiff. }
  split; [apply manifestOf_deployment|]. split; [apply manifest_is_Some|].
  intros Hnodup. split; [by apply manifest_size|].
  intros file Hin. by apply manifest_lookup.
Qed.

(** C10. Nothing is deduplicated before upload.  In a run of [upload] that
    returns, the files to upload are the scanned files with a missing hash,
    each as often as scanned; the buckets hold each of them once per
    occurrence and their byte totals add up to the sum of all their sizes;
    one key is transmitted per file.  So two scanned files with the same
    missing fingerprint are both to be uploaded, the key is transmitted at
    least twice, and, public paths being distinct, the manifest maps both
    paths to the shared fingerprint. *)
Theorem duplicate_content_is_uploaded_per_copy
    (cfToken directory accountId projectName : string) (gitData : GitData)
    (s s' : State) (d : Deployment) :
  upload cfToken directory accountId projectName gitData s = (Returned d, s') ->
  exists files uploadsJwt missingHashes requests deploy,
    findUploadableFiles directory = Returned files
    /\ (exists tokenResponse world1 tokenResult checkResponse world2 checkResult,
          fetch (requestFor "GET"
                   (projectUrl accountId projectName +:+ "/upload-token")
                   cfToken Undefined) (remote s)
          = (Returned tokenResponse, world1)
          /\ jsonResult tokenResponse = Returned tokenResult
          /\ uploadsJwtOf tokenResult = Returned uploadsJwt
          /\ fetch (requestFor "POST" "/pages/assets/check-missing" uploadsJwt
                      (HashesObject (map UploadableFile.hash files))) world1
             = (Returned checkResponse, world2)
          /\ jsonResult checkResponse = Returned checkResult
          /\ missingHashesOf files checkResult = Returned missingHashes)
    /\ sent s' = sent s ++ requests
    /\ last requests = Some deploy
    /\ manifestOf deploy = Some (manifest files)
    /\ let toUpload := filesToUpload files missingHashes in
       let buckets := Packer.uploadBuckets toUpload in
       toUpload ≡ₚ List.filter (isMissing missingHashes) files
       /\ flat_map Bucket.files buckets ≡ₚ toUpload
       /\ foldr (fun b acc => Bucket.size b + acc) 0 buckets
          = Packer.totalSize toUpload
       /\ transmittedKeys requests ≡ₚ map UploadableFile.hash toUpload
       /\ forall i j f1 f2,
            i <> j -> files !! i = Some f1 -> files !! j = Some f2 ->
            UploadableFile.hash f1 = UploadableFile.hash f2 ->
            UploadableFile.hash f1 ∈ missingHashes ->
            (2 <= occurrences (UploadableFile.hash f1)
                    (map UploadableFile.hash toUpload))%nat
            /\ (2 <= occurrences (UploadableFile.hash f1)
                       (transmittedKeys requests))%nat
            /\ (NoDup (map UploadableFile.publicUrl files) ->
                UploadableFile.publicUrl f1 <> UploadableFile.publicUrl f2
                /\ manifest files !! UploadableFile.publicUrl f1
                   = Some (UploadableFile.hash f1)
                /\ manifest files !! UploadableFile.publicUrl f2
                   = Some (UploadableFile.hash f1)).
Proof.
  intros Hrun.
  apply upload_Returned in Hrun
    as (files & jwt & missing & payloads & Hscan & Hanswered & Hpay & Hsent).
  destruct (transmitted_by_run cfToken directory accountId projectName gitData
              files jwt missing payloads Hpay) as [_ Hkeys].
  exists files, jwt, missing,
    (requestsOfRun cfToken directory accountId projectName gitData files jwt payloads),
    (requestFor "POST" (projectUrl accountId projectName +:+ "/deployments")
       cfToken (FormDataObject (deploymentForm files gitData directory))).
  assert (transmittedKeys
            (requestsOfRun cfToken directory accountId projectName gitData files
               jwt payloads)
          ≡ₚ map UploadableFile.hash (filesToUpload files missing)) as Hperm.
  { rewrite Hkeys. apply Permutation_map.
    rewrite nonEmpty_files. apply PackerFacts.uploadBuckets_files. }
  split; [done|]. split; [done|]. split; [done|]. split.
  { apply last_Some.
    exists ([ requestFor "GET" (projectUrl accountId projectName +:+ "/upload-token")
                cfToken Undefined;
              requestFor "POST" "/pages/assets/check-missing" jwt
                (HashesObject (map UploadableFile.hash files)) ]
            ++ map (uploadRequest jwt) payloads
            ++ [ requestFor "POST" "/pages/assets/upsert-hashes" jwt
                   (HashesObject (map UploadableFile.hash files)) ]).
    unfold requestsOfRun. simpl. by rewrite <- !app_assoc. }
  split; [apply manifestOf_deployment|].
  split; [apply sortBySizeDescending_Permutation|].
  split; [apply PackerFacts.uploadBuckets_files|].
  split; [apply PackerFacts.uploadBuckets_total|].
  split; [done|].
  intros i j f1 f2 Hij Hi Hj Hsame Hmissing.
  pose proof (both_copies_selected files missing i j f1 f2 Hij Hi Hj Hsame Hmissing)
    as Htwo.
  split; [done|]. split.
  { by rewrite (occurrences_Permutation _ _ _ Hperm). }
  intros Hnodup. split.
  - intros Hurl. apply Hij.
    apply (NoDup_lookup (map UploadableFile.publicUrl files) i j
             (UploadableFile.publicUrl f1)); [done | |].
    + change (map UploadableFile.publicUrl files)
        with (UploadableFile.publicUrl <$> files).
      by rewrite list_lookup_fmap, Hi.
    + change (map UploadableFile.publicUrl files)
        with (UploadableFile.publicUrl <$> files).
      by rewrite list_lookup_fmap, Hj, Hurl.
  - split.
    + apply manifest_lookup; [done|]. by eapply list_elem_of_lookup_2.
    + rewrite Hsame. apply manifest_lookup; [done|]. by eapply list_elem_of_lookup_2.
Qed.

End WithPlatform.

#[local] Existing Instance Sample.platform.

Lemma non_2xx_response_is_fatal_witness :
  getProject "secret" "acct" "gone" Sample.start
  = (Thrown (ApiError "Cloudflare API request failed with status 404: project not found"),
     Sample.state []
       [requestFor "GET" "/accounts/acct/pages/projects/gone" "secret" Undefined]).
Proof.
  apply (@non_2xx_response_is_fatal Sample.platform "GET"
           "/accounts/acct/pages/projects/gone" "secret" Undefined Sample.start
           (Response.mk 404 "project not found") ([] : list string)).
  - vm_compute. reflexivity.
  - simpl. lia.
Defined.

Lemma control_file_errors_are_swallowed_witness :
  let formData := deploymentForm Sample.scanned Sample.gitData "/site" in
  ("_redirects" ∉ map fst formData)
  /\ upload "secret" "/site" "acct" "proj" Sample.gitData Sample.start
     = createDeployment "secret" "acct" "proj" formData Sample.synced.
Proof.
  destruct (control_file_errors_are_swallowed "secret" "/site" "acct" "proj"
              Sample.gitData "_redirects" (SystemError "EACCES")
              Sample.start Sample.synced Sample.scanned)
    as (Hfield & Hsame & _).
  - by left.
  - vm_compute. reflexivity.
  - vm_compute. reflexivity.
  - split; [exact Hfield | exact Hsame].
Defined.

Lemma reserved_names_are_not_scanned_witness :
  findUploadableFiles "/site" = Returned Sample.scanned
  /\ forall key, is_Some (manifest Sample.scanned !! key) ->
       exists file, file ∈ Sample.scanned /\ UploadableFile.publicUrl file = key.
Proof.
  assert (findUploadableFiles "/site" = Returned Sample.scanned) as H
    by (vm_compute; reflexivity).
  split; [exact H|].
  destruct (reserved_names_are_not_scanned "/site" Sample.scanned H)
    as (dirEntries & _ & _ & _ & _ & _ & Hkeys).
  exact Hkeys.
Defined.

Lemma fingerprint_of_bytes_and_extension_witness :
  UploadableFile.hash Sample.indexPage = UploadableFile.hash Sample.copyPage
  /\ String.length (UploadableFile.hash Sample.indexPage) = 32%nat.
Proof.
  destruct (fingerprint_of_bytes_and_extension "/site" "/site"
              (Dirent.mk "index.html" "/site" true)
              (Dirent.mk "index.html" "/site/copy" true)
              Sample.indexPage Sample.copyPage)
    as (c1 & c2 & Hc1 & Hc2 & _ & _ & Hlen & _ & Hsame).
  - intros data. unfold blake3, Sample.platform.
    rewrite length_take, length_app, length_replicate. lia.
  - vm_compute. reflexivity.
  - vm_compute. reflexivity.
  - split; [|exact Hlen]. apply Hsame.
    + vm_compute in Hc1, Hc2. congruence.
    + vm_compute. reflexivity.
Defined.

Lemma different_extension_different_fingerprint_witness :
  UploadableFile.hash Sample.notesTxt <> UploadableFile.hash Sample.notesMd.
Proof.
  apply (different_extension_different_fingerprint "/site" "/site"
           (Dirent.mk "notes.txt" "/site" true) (Dirent.mk "notes.md" "/site" true)
           Sample.notesTxt Sample.notesMd Sample.notes).
  - vm_compute. reflexivity.
  - vm_compute. reflexivity.
  - vm_compute. reflexivity.
  - vm_compute. reflexivity.
  - vm_compute. discriminate.
  - intros _. vm_compute. discriminate.
Defined.

Lemma sample_scan : findUploadableFiles "/site" = Returned Sample.scanned.
Proof. vm_compute. reflexivity. Qed.

(** Evaluates the answers of the sample store in [H], a proof of
    [answered] for the sample site. *)
Ltac evaluate_answers H :=
  let Hfetch1 := fresh in let Hresult1 := fresh in let Hjwt := fresh in
  let Hfetch2 := fresh in let Hresult2 := fresh in let Hmissing := fresh in
  destruct H as (? & ? & ? & ? & ? & ? & Hfetch1 & Hresult1 & Hjwt & Hfetch2
                 & Hresult2 & Hmissing);
  vm_compute in Hfetch1; injection Hfetch1 as <- <-;
  vm_compute in Hresult1; injection Hresult1 as <-;
  vm_compute in Hjwt; injection Hjwt as <-;
  vm_compute in Hfetch2; injection Hfetch2 as <- <-;
  vm_compute in Hresult2; injection Hresult2 as <-;
  vm_compute in Hmissing; injection Hmissing as <-.

Lemma manifest_lists_every_scanned_file_witness :
  exists earlier deploy,
    sent Sample.revisited = earlier ++ [deploy]
    /\ transmittedKeys (earlier ++ [deploy])
       ≡ₚ map UploadableFile.hash [Sample.indexPage; Sample.notesMd; Sample.copyPage]
    /\ (UploadableFile.hash Sample.notesTxt ∉ transmittedKeys (earlier ++ [deploy]))
    /\ manifestOf deploy = Some (manifest Sample.scanned)
    /\ size (manifest Sample.scanned) = 4%nat
    /\ manifest Sample.scanned !! "/notes.txt"
       = Some (UploadableFile.hash Sample.notesTxt).
Proof.
  destruct (manifest_lists_every_scanned_file "secret" "/site" "acct" "proj"
              Sample.gitData Sample.revisit Sample.revisited
              (JsObject [("id", JsString "deployment-1")]))
    as (files & jwt & missing & earlier & deploy & uploaded & Hscan & Hanswered
        & Hsent & _ & Huploaded & _ & Hkeys & Hkey & Hmanifest & _ & Hunique).
  - vm_compute. reflexivity.
  - rewrite sample_scan in Hscan. injection Hscan as <-.
    evaluate_answers Hanswered.
    assert (NoDup (map UploadableFile.publicUrl Sample.scanned)) as Hnodup.
    { refine (bool_decide_unpack _ _). vm_compute. exact I. }
    destruct (Hunique Hnodup) as [Hsize Hlookup].
    exists earlier, deploy. split; [exact Hsent|].
    split.
    { rewrite Hkeys. apply Permutation_map. vm_compute in Huploaded.
      exact Huploaded. }
    split.
    { intros Hin. apply Hkey in Hin as [Hin _]. revert Hin.
      refine (bool_decide_unpack _ _). vm_compute. exact I. }
    split; [exact Hmanifest|]. split; [exact Hsize|].
    apply (Hlookup Sample.notesTxt). unfold Sample.scanned.
    right. left.
Defined.

Lemma duplicate_content_is_uploaded_per_copy_witness :
  exists missingHashes requests,
    sent Sample.finished = sent Sample.start ++ requests
    /\ transmittedKeys requests
       ≡ₚ map UploadableFile.hash (filesToUpload Sample.scanned missingHashes)
    /\ UploadableFile.hash Sample.indexPage ∈ missingHashes
    /\ (2 <= occurrences (UploadableFile.hash Sample.indexPage)
               (transmittedKeys requests))%nat.
Proof.
  destruct (duplicate_content_is_uploaded_per_copy "secret" "/site" "acct" "proj"
              Sample.gitData Sample.start Sample.finished
              (JsObject [("id", JsString "deployment-1")]))
    as (files & jwt & missing & requests & deploy & Hscan & Hanswered & Hsent
        & _ & _ & _ & _ & _ & Hkeys & Hcopies).
  - vm_compute. reflexivity.
  - rewrite sample_scan in Hscan. injection Hscan as <-.
    assert (UploadableFile.hash Sample.indexPage ∈ missing) as Hmissing.
    { evaluate_answers Hanswered.
      refine (bool_decide_unpack _ _). vm_compute. exact I. }
    exists missing, requests. split; [exact Hsent|]. split; [exact Hkeys|].
    split; [exact Hmissing|].
    apply (Hcopies 0%nat 3%nat Sample.indexPage Sample.copyPage);
      [discriminate | reflexivity | reflexivity | reflexivity | exact Hmissing].
Defined.

End UploadTheorems.

(** ** Encodings, continued *)

Module EncodingProperties.
Import Encoding Decoding.

Lemma hex_alphabet_byte (b : byte) :
  isHexDigit (hexDigit (N.shiftr (Byte.to_N b) 4)) = true
  /\ isHexDigit (hexDigit (N.land (Byte.to_N b) 15)) = true.
Proof. destruct b; split; reflexivity. Qed.

(** X10. The hexadecimal spelling of a buffer uses the digits 0-9 and a-f
    only and loses nothing: decoding it gives the buffer back. *)
Theorem hex_round_trip (bytes : list byte) :
  unhex (hex bytes) = Some bytes
  /\ Forall (fun c => isHexDigit c = true) (list_ascii_of_string (hex bytes)).
Proof.
  induction bytes as [|b rest [IHround IHdigits]]; simpl; [by split|].
  rewrite EncodingFacts.unhexByte_hex, IHround. split; [done|].
  destruct (hex_alphabet_byte b). by repeat constructor.
Qed.

(** *** base64 *)

Lemma lor_disjoint (x c k : N) :
  (c < 2 ^ k)%N -> N.lor (x * 2 ^ k) c = (x * 2 ^ k + c)%N.
Proof.
  intros Hc.
  assert (N.land (x * 2 ^ k) c = 0%N) as Hland.
  { apply N.bits_inj. intros m. rewrite N.land_spec, N.bits_0.
    destruct (N.lt_ge_cases m k) as [Hlow|Hhigh].
    - by rewrite N.mul_pow2_bits_low.
    - destruct (N.eq_0_gt_0_cases c) as [->|Hpos].
      + by rewrite N.bits_0, andb_false_r.
      + rewrite (N.bits_above_log2 c m), andb_false_r; [done|].
        apply N.log2_lt_pow2 in Hc; [lia | done]. }
  by rewrite <- N.lxor_lor, N.add_nocarry_lxor.
Qed.

(** The 24-bit number three bytes spell. *)
Lemma pack_bytes (a b c : N) :
  (a < 256)%N -> (b < 256)%N -> (c < 256)%N ->
  N.lor (N.lor (N.shiftl a 16) (N.shiftl b 8)) c = (a * 65536 + b * 256 + c)%N.
Proof.
  intros Ha Hb Hc. rewrite !N.shiftl_mul_pow2.
  rewrite (lor_disjoint a (b * 2 ^ 8) 16) by (change (2 ^ 16)%N with 65536%N;
    change (2 ^ 8)%N with 256%N; lia).
  replace (a * 2 ^ 16 + b * 2 ^ 8)%N with ((a * 256 + b) * 2 ^ 8)%N
    by (change (2 ^ 16)%N with 65536%N; change (2 ^ 8)%N with 256%N; lia).
  rewrite lor_disjoint by (change (2 ^ 8)%N with 256%N; lia).
  change (2 ^ 8)%N with 256%N. lia.
Qed.

Lemma base64Value_digit (n : N) :
  (n < 64)%N ->
  base64Value (base64Digit n) = Some n
  /\ Ascii.eqb (base64Digit n) "=" = false
  /\ isBase64Digit (base64Digit n) = true.
Proof.
  intros Hn. destruct n as [|p]; [done|].
  do 6 (destruct p as [p|p|]; try done); lia.
Qed.

Ltac euclid := zify; Z.to_euclidean_division_equations; lia.

(** The four digits of a 24-bit number spell it, and none is the padding. *)
Lemma group_digits (n : N) :
  (n < 16777216)%N ->
  group (base64Digit (N.shiftr n 18)) (base64Digit (N.land (N.shiftr n 12) 63))
        (base64Digit (N.land (N.shiftr n 6) 63)) (base64Digit (N.land n 63))
  = Some n
  /\ Ascii.eqb (base64Digit (N.land (N.shiftr n 6) 63)) "=" = false
  /\ Ascii.eqb (base64Digit (N.land n 63)) "=" = false.
Proof.
  intros Hn. change 63%N with (N.ones 6).
  rewrite !N.land_ones, !N.shiftr_div_pow2.
  change (2 ^ 18)%N with 262144%N. change (2 ^ 12)%N with 4096%N.
  change (2 ^ 6)%N with 64%N.
  destruct (base64Value_digit (n / 262144)) as (H1 & _); [euclid|].
  destruct (base64Value_digit ((n / 4096) mod 64)) as (H2 & _); [euclid|].
  destruct (base64Value_digit ((n / 64) mod 64)) as (H3 & Hpad3 & _); [euclid|].
  destruct (base64Value_digit (n mod 64)) as (H4 & Hpad4 & _); [euclid|].
  unfold group. rewrite H1, H2, H3, H4.
  repeat split; try done. f_equal. euclid.
Qed.

Lemma byteAt_pack (a b c : byte) :
  let n := (Byte.to_N a * 65536 + Byte.to_N b * 256 + Byte.to_N c)%N in
  byteAt n 16 = Some a /\ byteAt n 8 = Some b /\ byteAt n 0 = Some c.
Proof.
  pose proof (Byte.to_N_bounded a). pose proof (Byte.to_N_bounded b).
  pose proof (Byte.to_N_bounded c).
  intros n. unfold byteAt. change 255%N with (N.ones 8).
  rewrite !N.land_ones, !N.shiftr_div_pow2.
  change (2 ^ 16)%N with 65536%N. change (2 ^ 8)%N with 256%N.
  change (2 ^ 0)%N with 1%N.
  replace ((n / 65536) mod 256)%N with (Byte.to_N a) by (unfold n; euclid).
  replace ((n / 256) mod 256)%N with (Byte.to_N b) by (unfold n; euclid).
  replace ((n / 1) mod 256)%N with (Byte.to_N c) by (unfold n; euclid).
  by rewrite !Byte.of_to_N.
Qed.

Lemma list_ind3 {A} (P : list A -> Prop) :
  P [] -> (forall a, P [a]) -> (forall a b, P [a; b]) ->
  (forall a b c l, P l -> P (a :: b :: c :: l)) ->
  forall l, P l.
Proof.
  intros H0 H1 H2 H3 l.
  assert (P l /\ (forall a, P (a :: l)) /\ (forall a b, P (a :: b :: l))) as [H _].
  { induction l as [|x l (IH0 & IH1 & IH2)]; [by repeat split|].
    split; [apply IH1|]. split; [intros a; apply IH2 | intros a b; by apply H3]. }
  exact H.
Qed.

Lemma unbase64_full c1 c2 c3 c4 rest n bytes a b c :
  Ascii.eqb c4 "=" = false -> group c1 c2 c3 c4 = Some n ->
  unbase64 rest = Some bytes ->
  byteAt n 16 = Some a -> byteAt n 8 = Some b -> byteAt n 0 = Some c ->
  unbase64 (String c1 (String c2 (String c3 (String c4 rest))))
  = Some (a :: b :: c :: bytes).
Proof. intros Hpad Hgroup Hrest Ha Hb Hc. simpl. by rewrite Hpad, Hgroup, Hrest, Ha, Hb, Hc. Qed.

Lemma unbase64_two c1 c2 c3 n a b :
  Ascii.eqb c3 "=" = false -> group c1 c2 c3 "A" = Some n ->
  byteAt n 16 = Some a -> byteAt n 8 = Some b ->
  unbase64 (String c1 (String c2 (String c3 "="))) = Some [a; b].
Proof. intros Hpad Hgroup Ha Hb. simpl. by rewrite Hpad, Hgroup, Ha, Hb. Qed.

Lemma unbase64_one c1 c2 n a :
  group c1 c2 "A" "A" = Some n -> byteAt n 16 = Some a ->
  unbase64 (String c1 (String c2 "==")) = Some [a].
Proof. intros Hgroup Ha. simpl. by rewrite Hgroup, Ha. Qed.

(** X11. base64 text is four characters for every three bytes, the last
    group padded, and it loses nothing: decoding the text gives the bytes
    back, so two buffers with the same base64 text are equal. *)
Theorem base64_round_trip (bytes : list byte) :
  unbase64 (base64 bytes) = Some bytes
  /\ String.length (base64 bytes) = (4 * ((length bytes + 2) / 3))%nat
  /\ forall other, base64 other = base64 bytes -> other = bytes.
Proof.
  assert (forall l, unbase64 (base64 l) = Some l) as Hround.
  { induction l as [|a|a b|a b c rest IH] using list_ind3.
    - done.
    - pose proof (Byte.to_N_bounded a) as Ha.
      cbn [base64]. cbv zeta.
      assert (N.shiftl (Byte.to_N a) 16
              = (Byte.to_N a * 65536 + Byte.to_N x00 * 256 + Byte.to_N x00)%N) as ->.
      { rewrite N.shiftl_mul_pow2. change (2 ^ 16)%N with 65536%N. simpl. lia. }
      set (n := (Byte.to_N a * 65536 + Byte.to_N x00 * 256 + Byte.to_N x00)%N).
      destruct (group_digits n) as (Hgroup & _); [unfold n; simpl; lia|].
      destruct (byteAt_pack a x00 x00) as (Hbyte & _).
      apply (unbase64_one _ _ n); [|exact Hbyte].
      assert (N.land (N.shiftr n 6) 63 = 0%N) as H3.
      { change 63%N with (N.ones 6). rewrite N.land_ones, N.shiftr_div_pow2.
        change (2 ^ 6)%N with 64%N. unfold n. simpl. euclid. }
      assert (N.land n 63 = 0%N) as H4.
      { change 63%N with (N.ones 6). rewrite N.land_ones.
        change (2 ^ 6)%N with 64%N. unfold n. simpl. euclid. }
      by rewrite H3, H4 in Hgroup.
    - pose proof (Byte.to_N_bounded a) as Ha. pose proof (Byte.to_N_bounded b) as Hb.
      cbn [base64]. cbv zeta.
      assert (N.lor (N.shiftl (Byte.to_N a) 16) (N.shiftl (Byte.to_N b) 8)
              = (Byte.to_N a * 65536 + Byte.to_N b * 256 + Byte.to_N x00)%N) as ->.
      { rewrite <- (N.lor_0_r (N.lor _ _)). rewrite pack_bytes; [done | lia | lia | lia]. }
      set (n := (Byte.to_N a * 65536 + Byte.to_N b * 256 + Byte.to_N x00)%N).
      destruct (group_digits n) as (Hgroup & Hpad3 & _); [unfold n; simpl; lia|].
      destruct (byteAt_pack a b x00) as (Hbyte1 & Hbyte2 & _).
      apply (unbase64_two _ _ _ n); [exact Hpad3 | | exact Hbyte1 | exact Hbyte2].
      assert (N.land n 63 = 0%N) as H4.
      { change 63%N with (N.ones 6). rewrite N.land_ones.
        change (2 ^ 6)%N with 64%N. unfold n. simpl. euclid. }
      by rewrite H4 in Hgroup.
    - pose proof (Byte.to_N_bounded a) as Ha. pose proof (Byte.to_N_bounded b) as Hb.
      pose proof (Byte.to_N_bounded c) as Hc.
      cbn [base64]. cbv zeta. rewrite pack_bytes by lia.
      set (n := (Byte.to_N a * 65536 + Byte.to_N b * 256 + Byte.to_N c)%N).
      destruct (group_digits n) as (Hgroup & _ & Hpad4); [unfold n; lia|].
      destruct (byteAt_pack a b c) as (Hbyte1 & Hbyte2 & Hbyte3).
      by apply (unbase64_full _ _ _ _ _ n). }
  split; [apply Hround|]. split.
  - induction bytes as [|a|a b|a b c rest IH] using list_ind3; try done.
    cbn [base64]. cbv zeta. cbn [String.length length]. rewrite IH.
    replace (S (S (S (length rest))) + 2)%nat with (length rest + 2 + 1 * 3)%nat by lia.
    rewrite Nat.div_add by lia. lia.
  - intros other Hsame. apply (inj Some).
    by rewrite <- (Hround other), <- (Hround bytes), Hsame.
Qed.

End EncodingProperties.

(** ** The packer, continued *)

Module PackerProperties.
Import Packer PackerFacts.

(** [Array.prototype.find] returns the first element that passes. *)
Lemma find_first {A} (p : A -> bool) (l1 l2 : list A) (x : A) :
  (forall y, y ∈ l1 -> p y = false) -> p x = true ->
  List.find p (l1 ++ x :: l2) = Some x.
Proof.
  intros Hbefore Hx. induction l1 as [|y l1 IH]; simpl; [by rewrite Hx|].
  rewrite (Hbefore y) by (by left). apply IH. intros z Hz. apply Hbefore. by right.
Qed.

Lemma find_None {A} (p : A -> bool) (l : list A) :
  (forall y, y ∈ l -> p y = false) -> List.find p l = None.
Proof.
  intros Hall. induction l as [|y l IH]; simpl; [done|].
  rewrite (Hall y) by (by left). apply IH. intros z Hz. apply Hall. by right.
Qed.

(** Every index is reached by the rotation, whatever the start. *)
Lemma rotation_onto (len i k : nat) :
  (k < len)%nat -> exists j, (j < len)%nat /\ ((i + j) mod len)%nat = k.
Proof.
  intros Hk.
  assert (len <> 0)%nat as Hlen by lia.
  pose proof (Nat.mod_upper_bound i len Hlen) as Hr.
  pose proof (Nat.div_mod_eq i len) as Hi.
  set (r := (i mod len)%nat) in *. set (q := (i / len)%nat) in *.
  destruct (le_lt_dec r k) as [Hle|Hgt].
  - exists (k - r)%nat. split; [lia|]. symmetry.
    apply (Nat.mod_unique _ _ q); [done | lia].
  - exists (k + len - r)%nat. split; [lia|]. symmetry.
    apply (Nat.mod_unique _ _ (S q)); [done | lia].
Qed.

(** X1. The packer loses no file, duplicates none and invents none: the
    files of the buckets it returns are the input files, each as often as it
    occurs in the input, and the buckets' byte totals add up to the sum of
    the input sizes. *)
Theorem packer_keeps_every_file (filesToUpload : list UploadableFile.t) :
  flat_map Bucket.files (uploadBuckets filesToUpload) ≡ₚ filesToUpload
  /\ foldr (fun b acc => Bucket.size b + acc) 0 (uploadBuckets filesToUpload)
     = totalSize filesToUpload.
Proof. split; [apply uploadBuckets_files | apply uploadBuckets_total]. Qed.

Lemma reduceFrom_sublist files : forall i buckets processed,
  Forall (fun b => Bucket.files b `sublist_of` processed) buckets ->
  Forall (fun b => Bucket.files b `sublist_of` processed ++ files)
    (reduceFrom i buckets files).
Proof.
  induction files as [|file rest IH]; intros i buckets processed Hall; simpl.
  - by rewrite app_nil_r.
  - replace (processed ++ file :: rest) with ((processed ++ [file]) ++ rest)
      by (by rewrite <- app_assoc).
    apply IH.
    destruct (packStep_cases buckets file i)
      as [(l1 & bucket & l2 & -> & _ & ->) | [_ ->]].
    + apply Forall_app in Hall as [H1 H2]. apply Forall_cons in H2 as [Hb H2].
      apply Forall_app. split; [|apply Forall_cons; split].
      * eapply Forall_impl; [exact H1|]. intros b Hsub. by apply sublist_inserts_r.
      * simpl. by apply sublist_app.
      * eapply Forall_impl; [exact H2|]. intros b Hsub. by apply sublist_inserts_r.
    + apply Forall_app. split.
      * eapply Forall_impl; [exact Hall|]. intros b Hsub. by apply sublist_inserts_r.
      * apply Forall_cons. split; [|constructor]. simpl.
        apply sublist_inserts_l. done.
Qed.

(** X2. Inside a bucket the files stand in the order in which they were
    packed: the list of files of every returned bucket is a sub-list of the
    input list. *)
Theorem bucket_files_in_packing_order (filesToUpload : list UploadableFile.t)
    (bucket : Bucket.t) :
  bucket ∈ uploadBuckets filesToUpload ->
  Bucket.files bucket `sublist_of` filesToUpload.
Proof.
  intros Hin.
  assert (Forall (fun b => Bucket.files b `sublist_of` []) initialBuckets) as Hinit
    by repeat constructor.
  pose proof (reduceFrom_sublist filesToUpload 0 initialBuckets [] Hinit) as Hall.
  simpl in Hall. rewrite Forall_forall in Hall. by apply Hall.
Qed.

Lemma bucket_files_in_packing_order_witness :
  [Sample.small] `sublist_of` Sample.oversize.
Proof.
  apply (bucket_files_in_packing_order Sample.oversize
           (Bucket.mk [Sample.small] 10485760)).
  vm_compute. right. left.
Defined.

Lemma packStep_length_le buckets file i :
  (length (packStep buckets file i) <= S (length buckets))%nat.
Proof.
  unfold packStep. destruct (findOffset buckets file i).
  - rewrite length_alter. lia.
  - rewrite length_app. simpl. lia.
Qed.

Lemma reduceFrom_length_le files : forall i buckets,
  (length (reduceFrom i buckets files) <= length buckets + length files)%nat.
Proof.
  induction files as [|file rest IH]; intros i buckets; simpl; [lia|].
  specialize (IH (S i) (packStep buckets file i)).
  pose proof (packStep_length_le buckets file i). lia.
Qed.

Lemma nonEmpty_count buckets :
  (length (List.filter Upload.nonEmpty buckets)
   <= length (flat_map Bucket.files buckets))%nat.
Proof.
  induction buckets as [|b rest IH]; simpl; [done|].
  rewrite length_app. unfold Upload.nonEmpty at 1.
  destruct (Bucket.files b); simpl; lia.
Qed.

(** X3. The packer returns at least its three initial buckets and appends at
    most one bucket per file; the buckets that are not empty, which are the
    ones uploaded, are at most as many as the files. *)
Theorem packer_bucket_count (filesToUpload : list UploadableFile.t) :
  (3 <= length (uploadBuckets filesToUpload) <= 3 + length filesToUpload)%nat
  /\ (length (List.filter Upload.nonEmpty (uploadBuckets filesToUpload))
      <= length filesToUpload)%nat.
Proof.
  split; [split|].
  - apply (PackerTheorems.reduceFrom_length filesToUpload 0 initialBuckets).
  - apply (reduceFrom_length_le filesToUpload 0 initialBuckets).
  - etrans; [apply nonEmpty_count|].
    by rewrite (Permutation_length (uploadBuckets_files filesToUpload)).
Qed.

Lemma reduceFrom_appended_nonempty files : forall i buckets,
  (forall k b, (3 <= k)%nat -> buckets !! k = Some b -> Bucket.files b <> []) ->
  forall k b, (3 <= k)%nat -> reduceFrom i buckets files !! k = Some b ->
              Bucket.files b <> [].
Proof.
  induction files as [|file rest IH]; intros i buckets Hinv; simpl; [done|].
  apply IH. intros k b Hk Hlook. unfold packStep in Hlook.
  destruct (findOffset buckets file i) as [j|].
  - rewrite list_lookup_alter in Hlook. case_decide.
    + apply fmap_Some in Hlook as (b0 & _ & ->). simpl.
      intros Heq. apply app_eq_nil in Heq as [_ Heq]. discriminate.
    + by apply (Hinv k).
  - apply lookup_app_Some in Hlook as [Hlook | [_ Hlook]]; [by apply (Hinv k)|].
    apply list_lookup_singleton_Some in Hlook as [_ <-]. done.
Qed.

(** X4. Only the three initial buckets can stay empty: a bucket the packer
    appended (index 3 and up) holds at least one file. *)
Theorem appended_buckets_are_not_empty (filesToUpload : list UploadableFile.t)
    (k : nat) (bucket : Bucket.t) :
  (3 <= k)%nat -> uploadBuckets filesToUpload !! k = Some bucket ->
  Bucket.files bucket <> [].
Proof.
  apply (reduceFrom_appended_nonempty filesToUpload 0 initialBuckets).
  intros k' b Hk Hlook. apply lookup_lt_Some in Hlook. simpl in Hlook. lia.
Qed.

Lemma appended_buckets_are_not_empty_witness :
  Bucket.files (Bucket.mk [Sample.big] 62914560) <> [].
Proof.
  apply (appended_buckets_are_not_empty Sample.oversize 3).
  - lia.
  - vm_compute. reflexivity.
Defined.

(** X5. First fit with a rotating start: the search for file number [i]
    starts at bucket [i mod n] and goes round; the file is added, in place,
    to the first bucket on that round that accepts it. *)
Theorem file_goes_to_first_accepting_bucket (buckets : list Bucket.t)
    (file : UploadableFile.t) (i j : nat) (bucket : Bucket.t) :
  (j < length buckets)%nat ->
  buckets !! ((i + j) mod length buckets)%nat = Some bucket ->
  accepts file bucket = true ->
  (forall j' b', (j' < j)%nat ->
     buckets !! ((i + j') mod length buckets)%nat = Some b' ->
     accepts file b' = false) ->
  packStep buckets file i
  = alter (addFile file) ((i + j) mod length buckets)%nat buckets.
Proof.
  intros Hj Hlook Hacc Hbefore.
  assert (findOffset buckets file i = Some j) as Hfind.
  { unfold findOffset.
    assert (seq 0 (length buckets)
            = seq 0 j ++ j :: seq (S j) (length buckets - S j)) as ->.
    { replace (length buckets) with (j + S (length buckets - S j))%nat at 1 by lia.
      by rewrite seq_app. }
    apply find_first.
    - intros j' Hj'. apply elem_of_seq in Hj'.
      destruct (buckets !! ((i + j') mod length buckets)%nat) as [b'|] eqn:Hb'; [|done].
      apply (Hbefore j' b'); [lia | done].
    - by rewrite Hlook. }
  unfold packStep. rewrite Hfind. by rewrite (Nat.add_comm j i).
Qed.

Lemma file_goes_to_first_accepting_bucket_witness :
  let full := Bucket.mk [Sample.record "/x.bin" 52428800 "xx"] 52428800 in
  packStep [full; full; emptyBucket] (Sample.tiny 0) 3
  = [full; full; Bucket.mk [Sample.tiny 0] 1].
Proof.
  intros full.
  rewrite (file_goes_to_first_accepting_bucket [full; full; emptyBucket]
             (Sample.tiny 0) 3 2 emptyBucket).
  - reflexivity.
  - simpl. lia.
  - reflexivity.
  - reflexivity.
  - intros j' b' Hj' Hlook.
    destruct j' as [|[|j']]; [| |lia]; vm_compute in Hlook;
      injection Hlook as <-; reflexivity.
Defined.

(** X6. A bucket is appended exactly when every existing bucket rejects the
    file; the new bucket then holds that file alone. *)
Theorem bucket_appended_iff_none_accepts (buckets : list Bucket.t)
    (file : UploadableFile.t) (i : nat) :
  packStep buckets file i
  = buckets ++ [Bucket.mk [file] (UploadableFile.size file)]
  <-> forall bucket, bucket ∈ buckets -> accepts file bucket = false.
Proof.
  split.
  - intros Hstep bucket Hin.
    assert (findOffset buckets file i = None) as Hfind.
    { destruct (findOffset buckets file i) as [j|] eqn:Hfind; [|done].
      unfold packStep in Hstep. rewrite Hfind in Hstep.
      apply (f_equal length) in Hstep.
      rewrite length_alter, length_app in Hstep. simpl in Hstep. lia. }
    apply list_elem_of_lookup_1 in Hin as [k Hk].
    pose proof (lookup_lt_Some _ _ _ Hk) as Hlt.
    destruct (rotation_onto (length buckets) i k Hlt) as (j & Hj & Hjk).
    unfold findOffset in Hfind.
    pose proof (find_none _ _ Hfind j) as Hnone. simpl in Hnone.
    rewrite Hjk, Hk in Hnone. apply Hnone. apply in_seq. lia.
  - intros Hall. unfold packStep.
    assert (findOffset buckets file i = None) as ->; [|done].
    unfold findOffset. apply find_None. intros j Hj.
    destruct (buckets !! ((i + j) mod length buckets)%nat) as [b|] eqn:Hb; [|done].
    apply Hall. by eapply list_elem_of_lookup_2.
Qed.

(** X7. Whatever the input, in every state of the packing every bucket
    holds at most 5001 files, its [size] is the sum of its files' sizes, and
    it is within 50 MiB unless it consists of one single file that is itself
    larger than 50 MiB. *)
Theorem bucket_limits_in_every_state (filesToUpload : list UploadableFile.t)
    (buckets : list Bucket.t) (bucket : Bucket.t) :
  buckets ∈ packingStates filesToUpload -> bucket ∈ buckets ->
  Z.of_nat (length (Bucket.files bucket)) <= 5001
  /\ Bucket.size bucket = totalSize (Bucket.files bucket)
  /\ (Bucket.size bucket <= 52428800
      \/ exists file, Bucket.files bucket = [file]
                      /\ 52428800 < UploadableFile.size file).
Proof.
  revert buckets bucket.
  apply (packingStates_inv
           (fun b => Z.of_nat (length (Bucket.files b)) <= 5001
                     /\ Bucket.size b = totalSize (Bucket.files b)
                     /\ (Bucket.size b <= 52428800
                         \/ exists file, Bucket.files b = [file]
                                         /\ 52428800 < UploadableFile.size file))
           (fun _ => True)).
  - intros file bucket _ (Hitems & Hsum & _) Hacc. unfold accepts in Hacc.
    apply andb_true_iff in Hacc as [Hbytes Hcount].
    apply Z.leb_le in Hbytes. apply Z.leb_le in Hcount.
    simpl. rewrite length_app, totalSize_app. simpl.
    split; [lia|]. split; [lia|]. left. lia.
  - intros file _. simpl. split; [lia|]. split; [lia|].
    destruct (Z_le_gt_dec (UploadableFile.size file) 52428800); [left; lia|].
    right. exists file. split; [done | lia].
  - simpl. split; [lia|]. split; [lia|]. left. lia.
  - done.
Qed.

Lemma bucket_limits_in_every_state_witness :
  let own := Bucket.mk [Sample.big] 62914560 in
  Z.of_nat (length (Bucket.files own)) <= 5001
  /\ Bucket.size own = totalSize (Bucket.files own)
  /\ (Bucket.size own <= 52428800
      \/ exists file, Bucket.files own = [file]
                      /\ 52428800 < UploadableFile.size file).
Proof.
  apply (bucket_limits_in_every_state Sample.oversize
           (uploadBuckets Sample.oversize)).
  - apply uploadBuckets_in_states.
  - vm_compute. do 3 right. left.
Defined.

End PackerProperties.

(** ** Selection and order of the files to upload *)

Module SelectionProperties.
Import Upload UploadFacts.

(** [a] may stand in front of [b] when the comparator [b.size - a.size] is
    not positive. *)
Lemma insertBySize_sorted a sorted :
  StronglySorted (fun a b => UploadableFile.size b <= UploadableFile.size a) sorted ->
  StronglySorted (fun a b => UploadableFile.size b <= UploadableFile.size a)
    (insertBySize a sorted).
Proof.
  induction 1 as [|b rest Hrest IH Hb]; simpl; [by repeat constructor|].
  destruct (Z.leb_spec (UploadableFile.size b - UploadableFile.size a) 0) as [Hle|Hgt].
  - constructor; [by constructor|]. constructor; [lia|].
    eapply Forall_impl; [exact Hb|]. intros c Hc. simpl in *. lia.
  - constructor; [done|].
    rewrite (insertBySize_Permutation a rest). constructor; [lia | done].
Qed.

Lemma sortBySizeDescending_sorted files :
  StronglySorted (fun a b => UploadableFile.size b <= UploadableFile.size a)
    (sortBySizeDescending files).
Proof.
  induction files as [|a rest IH]; simpl; [constructor|].
  by apply insertBySize_sorted.
Qed.

(** X8. The files handed to the packer are exactly the scanned files whose
    hash the remote store reported missing, and they are in descending order
    of size. *)
Theorem files_to_upload_sorted_and_missing (files : list UploadableFile.t)
    (missingHashes : list string) :
  StronglySorted (fun a b => UploadableFile.size b <= UploadableFile.size a)
    (filesToUpload files missingHashes)
  /\ (forall file, file ∈ filesToUpload files missingHashes
                   <-> file ∈ files /\ UploadableFile.hash file ∈ missingHashes)
  /\ length (filesToUpload files missingHashes)
     = length (List.filter (isMissing missingHashes) files).
Proof.
  unfold filesToUpload. split; [apply sortBySizeDescending_sorted|]. split.
  - intros file. rewrite (sortBySizeDescending_Permutation _).
    rewrite list_elem_of_In, filter_In, <- list_elem_of_In.
    unfold isMissing. by rewrite bool_decide_eq_true.
  - by rewrite (sortBySizeDescending_Permutation _).
Qed.

Lemma insertBySize_stable (p : UploadableFile.t -> bool) a sorted :
  (forall b, p a = true -> p b = true ->
             UploadableFile.size b = UploadableFile.size a) ->
  List.filter p (insertBySize a sorted) = List.filter p (a :: sorted).
Proof.
  intros Hsame. induction sorted as [|b rest IH]; [done|].
  cbn [insertBySize].
  destruct (Z.leb_spec (UploadableFile.size b - UploadableFile.size a) 0) as [Hle|Hgt];
    [done|].
  cbn [List.filter] in *. rewrite IH.
  destruct (p a) eqn:Ha, (p b) eqn:Hb; try done.
  specialize (Hsame b eq_refl Hb). lia.
Qed.

(** X9. The sort is stable: files of equal size keep the order in which the
    scanner listed them. *)
Theorem equal_sizes_keep_scan_order (files : list UploadableFile.t)
    (missingHashes : list string) (size : Z) :
  List.filter (fun f => UploadableFile.size f =? size)
    (filesToUpload files missingHashes)
  = List.filter (fun f => UploadableFile.size f =? size)
      (List.filter (isMissing missingHashes) files).
Proof.
  unfold filesToUpload.
  induction (List.filter (isMissing missingHashes) files) as [|a rest IH]; [done|].
  cbn [sortBySizeDescending foldr]. fold (sortBySizeDescending rest).
  rewrite insertBySize_stable.
  - cbn [List.filter]. by rewrite IH.
  - intros b Ha Hb. apply Z.eqb_eq in Ha, Hb. lia.
Qed.

End SelectionProperties.

(** ** The scanner and the fingerprint, continued *)

Module ScannerProperties.
Import Upload UploadFacts.

Lemma length_append (s t : string) :
  String.length (s +:+ t) = (String.length s + String.length t)%nat.
Proof. induction s as [|c s IH]; simpl; [done|]. by rewrite IH. Qed.

Lemma append_inj_l (s1 s2 t : string) : s1 +:+ t = s2 +:+ t -> s1 = s2.
Proof.
  revert s2. induction s1 as [|c s1 IH]; intros [|d s2] H; simpl in H.
  - done.
  - apply (f_equal String.length) in H. simpl in H. rewrite !length_append in H.
    simpl in H. lia.
  - apply (f_equal String.length) in H. simpl in H. rewrite !length_append in H.
    simpl in H. lia.
  - injection H as -> H. f_equal. by apply IH.
Qed.

Lemma splitJoin_free (sep : ascii) (glue s : string) :
  sep ∉ list_ascii_of_string glue ->
  sep ∉ list_ascii_of_string (Encoding.splitJoin sep glue s).
Proof.
  intros Hglue. induction s as [|c s IH]; simpl; [apply not_elem_of_nil|].
  destruct (Ascii.eqb_spec c sep) as [->|Hne].
  - assert (forall g, sep ∉ list_ascii_of_string g ->
              sep ∉ list_ascii_of_string (g +:+ Encoding.splitJoin sep glue s)) as Happ.
    { induction g as [|d g IHg]; simpl; intros Hg; [done|].
      apply not_elem_of_cons in Hg as [Hd Hg].
      apply not_elem_of_cons. split; [done | by apply IHg]. }
    by apply Happ.
  - simpl. apply not_elem_of_cons. split; [congruence | done].
Qed.

Lemma splitJoin_same (c : ascii) (s : string) :
  Encoding.splitJoin c (String c "") s = s.
Proof.
  induction s as [|d s IH]; simpl; [done|].
  destruct (Ascii.eqb_spec d c) as [->|_]; simpl; by rewrite IH.
Qed.

Section WithPlatform.
Context {P : Platform}.

(** X12. For one extension, different bytes give different hashed material,
    base64 being lossless; so files with the same extension and different
    contents get different fingerprints unless the hash function collides on
    those two strings. *)
Theorem different_bytes_different_material (contents1 contents2 : list byte)
    (path1 path2 : string) :
  Encoding.slice1 (extname path1) = Encoding.slice1 (extname path2) ->
  contents1 <> contents2 ->
  hashData contents1 path1 <> hashData contents2 path2
  /\ (blake3 (hashData contents1 path1) 16 <> blake3 (hashData contents2 path2) 16 ->
      fingerprint contents1 path1 <> fingerprint contents2 path2).
Proof.
  intros Hext Hdiff. split.
  - unfold hashData. rewrite Hext. intros Heq. apply append_inj_l in Heq.
    apply Hdiff. by apply EncodingProperties.base64_round_trip.
  - intros Hfree Heq. unfold fingerprint in Heq.
    by apply EncodingFacts.hex_inj in Heq.
Qed.

(** X13. The hashed material does not mark where the bytes end and the
    extension begins: a file whose extension spells the base64 text of some
    bytes followed by a second extension has the fingerprint of a file with
    those bytes and that second extension, without any collision of the hash
    function. *)
Theorem extension_can_stand_for_content (contents : list byte)
    (path emptyFilePath : string) :
  Encoding.slice1 (extname emptyFilePath)
  = Encoding.base64 contents +:+ Encoding.slice1 (extname path) ->
  hashData [] emptyFilePath = hashData contents path
  /\ fingerprint [] emptyFilePath = fingerprint contents path.
Proof.
  intros Hext.
  assert (hashData [] emptyFilePath = hashData contents path) as Hdata.
  { unfold hashData. by rewrite Hext. }
  split; [done|]. unfold fingerprint. by rewrite Hdata.
Qed.

(** X14. The public path of a scanned file starts with a slash; on a host
    whose separator is not the slash it contains no separator, and on a host
    whose separator is the slash it is the slash followed by the path
    relative to the scanned directory. *)
Theorem public_path_shape (resolvedDir : string) (entry : Dirent.t)
    (file : UploadableFile.t) :
  describe resolvedDir entry = Returned file ->
  (exists rest, UploadableFile.publicUrl file = String "/" rest)
  /\ (sep <> "/"%char ->
      sep ∉ list_ascii_of_string (UploadableFile.publicUrl file))
  /\ (sep = "/"%char ->
      UploadableFile.publicUrl file
      = "/" +:+ relative resolvedDir (UploadableFile.absolutePath file)).
Proof.
  unfold describe. intros H.
  apply Outcome_bind_Returned in H as (size & _ & H).
  apply Outcome_bind_Returned in H as (contents & _ & H).
  unfold mret, Outcome_ret in H. simplify_eq. simpl.
  split; [eauto|]. split.
  - intros Hsep. apply not_elem_of_cons. split; [done|].
    apply splitJoin_free. simpl. apply not_elem_of_cons. split; [done|].
    apply not_elem_of_nil.
  - intros ->. by rewrite splitJoin_same.
Qed.

Lemma mapM_Thrown {A B} (f : A -> Outcome B) (l : list A) (x : A) (e : Exception) :
  x ∈ l -> f x = Thrown e -> exists e', mapM f l = Thrown e'.
Proof.
  intros Hin Hx. induction l as [|y l IH]; [by apply elem_of_nil in Hin|].
  simpl. destruct (f y) as [b|e1] eqn:Hy; simpl; [|eauto].
  apply elem_of_cons in Hin as [->|Hin]; [congruence|].
  destruct (IH Hin) as [e' ->]. simpl. eauto.
Qed.

(** X15. The scan is all or nothing: when the size or the contents of one
    listed regular file that is not a reserved name cannot be read, the
    scanner returns no record at all and throws. *)
Theorem unreadable_file_fails_the_scan (dir : string)
    (dirEntries : list Dirent.t) (entry : Dirent.t) (e : Exception) :
  readdir (resolve [dir]) = Returned dirEntries ->
  entry ∈ dirEntries ->
  Dirent.isFile entry = true ->
  Dirent.name entry ∉ ["_worker.js"; "_redirects"; "_headers"; "_routes.json"] ->
  (let absolutePath :=
     resolve [resolve [dir]; Dirent.path entry; Dirent.name entry] in
   stat absolutePath = Thrown e \/ readFile absolutePath = Thrown e) ->
  exists e', findUploadableFiles dir = Thrown e'.
Proof.
  intros Hreaddir Hin Hfile Hname Hfail.
  unfold findUploadableFiles. rewrite Hreaddir. simpl.
  assert (exists e1, describe (resolve [dir]) entry = Thrown e1) as [e1 He1].
  { unfold describe. simpl in Hfail. destruct Hfail as [Hstat|Hread].
    - rewrite Hstat. simpl. eauto.
    - destruct (stat _); simpl; [|eauto]. rewrite Hread. simpl. eauto. }
  apply (mapM_Thrown _ _ entry e1); [|done].
  apply list_elem_of_In, filter_In. split; [by apply list_elem_of_In|].
  unfold uploadable. rewrite Hfile. simpl.
  apply negb_true_iff, bool_decide_eq_false. unfold ignoredFiles.
  intros Hreserved. apply Hname.
  rewrite !elem_of_union, !elem_of_singleton in Hreserved.
  rewrite !elem_of_cons. tauto.
Qed.

(** X16. When the scan throws, [upload] throws the same exception and sends
    nothing: the remote store and the request log are as before. *)
Theorem failed_scan_sends_nothing
    (cfToken directory accountId projectName : string) (gitData : GitData)
    (e : Exception) (s : State) :
  findUploadableFiles directory = Thrown e ->
  upload cfToken directory accountId projectName gitData s = (Thrown e, s).
Proof.
  intros Hscan. unfold upload, mbind, M_bind, await. by rewrite Hscan.
Qed.

End WithPlatform.

Lemma different_bytes_different_material_witness :
  hashData (P := Sample.platform) Sample.page "/site/index.html"
  <> hashData (P := Sample.platform) Sample.notes "/site/notes.html".
Proof.
  apply (different_bytes_different_material (P := Sample.platform)
           Sample.page Sample.notes "/site/index.html" "/site/notes.html").
  - reflexivity.
  - discriminate.
Defined.

Lemma extension_can_stand_for_content_witness :
  fingerprint (P := Sample.platform) [] "/site/a.TWFu"
  = fingerprint (P := Sample.platform) (list_byte_of_string "Man") "/site/a".
Proof.
  apply (extension_can_stand_for_content (P := Sample.platform)
           (list_byte_of_string "Man") "/site/a" "/site/a.TWFu").
  reflexivity.
Defined.

Lemma public_path_shape_witness :
  "\"%char ∉ list_ascii_of_string "/copy/index.html".
Proof.
  destruct (public_path_shape (P := Variants.windows) "C:\site"
              (Dirent.mk "index.html" "C:\site\copy" true)
              (UploadableFile.mk "C:\site\copy\index.html" 11 "text/html"
                 "6c6d74683d34544d6f39435070686d50" "/copy/index.html"))
    as (_ & Hfree & _).
  - vm_compute. reflexivity.
  - apply Hfree. discriminate.
Defined.

Lemma unreadable_file_fails_the_scan_witness :
  exists e', findUploadableFiles (P := Variants.vanished) "/site" = Thrown e'.
Proof.
  apply (unreadable_file_fails_the_scan (P := Variants.vanished) "/site"
           [ Dirent.mk "index.html" "/site" true; Dirent.mk "gone.txt" "/site" true ]
           (Dirent.mk "gone.txt" "/site" true) (SystemError "ENOENT")).
  - reflexivity.
  - right. left.
  - reflexivity.
  - simpl. intros Hin.
    repeat (apply elem_of_cons in Hin as [Hin|Hin]; [discriminate|]).
    by apply elem_of_nil in Hin.
  - left. reflexivity.
Defined.

Lemma failed_scan_sends_nothing_witness :
  upload (P := Sample.platform) "secret" "/nowhere" "acct" "proj"
    Sample.gitData Sample.start
  = (Thrown (SystemError "ENOENT"), Sample.start).
Proof.
  apply (failed_scan_sends_nothing (P := Sample.platform)).
  reflexivity.
Defined.

End ScannerProperties.

(** ** The request helper and the pipeline, continued *)

Module PipelineProperties.
Import Upload UploadFacts.
Section WithPlatform.
Context {P : Platform}.

Lemma M_bind_run {A B} (k : A -> M B) (c : M A) (s : State) :
  (c ≫= k) s
  = match c s with
    | (Returned a, s1) => k a s1
    | (Thrown e, s1) => (Thrown e, s1)
    end.
Proof. reflexivity. Qed.

Lemma ok_status (response : Response.t) :
  200 <= Response.status response <= 299 -> Response.ok response = true.
Proof.
  intros H. unfold Response.ok. apply andb_true_iff. split; apply Z.leb_le; lia.
Qed.

(** X17. The request helper does not check the shape of a body.  When the
    answer to the upload-token request has a status from 200 to 299 and its
    body is a JSON object without a property [result], the helper returns
    [undefined]; [upload] then throws a [TypeError] at the destructuring of
    line 85, and that one request is all it has sent. *)
Theorem missing_result_stops_the_run
    (cfToken directory accountId projectName : string) (gitData : GitData)
    (s : State) (files : list UploadableFile.t) (response : Response.t)
    (world1 : World) (properties : list (string * JsValue)) :
  findUploadableFiles directory = Returned files ->
  fetch (requestFor "GET" (projectUrl accountId projectName +:+ "/upload-token")
           cfToken Undefined) (remote s)
  = (Returned response, world1) ->
  200 <= Response.status response <= 299 ->
  parseJson (Response.text response) = Some (JsObject properties) ->
  Js.own "result" properties = None ->
  let s1 :=
    mkState world1
      (sent s ++
       [requestFor "GET" (projectUrl accountId projectName +:+ "/upload-token")
          cfToken Undefined]) in
  cfApiRequest "GET" (projectUrl accountId projectName +:+ "/upload-token")
    cfToken Undefined s
  = (Returned JsUndefined, s1)
  /\ upload cfToken directory accountId projectName gitData s = (Thrown TypeError, s1).
Proof.
  intros Hscan Hfetch Hstatus Hparse Hown s1.
  assert (cfApiRequest "GET" (projectUrl accountId projectName +:+ "/upload-token")
            cfToken Undefined s = (Returned JsUndefined, s1)) as Hcall.
  { unfold cfApiRequest. rewrite M_bind_run. unfold doFetch. rewrite Hfetch.
    rewrite (ok_status _ Hstatus). simpl.
    unfold await, jsonResult. rewrite Hparse. simpl. by rewrite Hown. }
  split; [done|].
  unfold upload. rewrite M_bind_run. unfold await at 1. rewrite Hscan.
  rewrite M_bind_run, Hcall. reflexivity.
Qed.



Lemma readablePayloads_cons bucket buckets :
  readablePayloads (bucket :: buckets)
  = readablePayloads [bucket] ++ readablePayloads buckets.
Proof.
  unfold readablePayloads. simpl.
  by destruct (mapM toPayload (Bucket.files bucket)).
Qed.


Lemma readablePayloads_Returned buckets payloads :
  mapM (fun bucket => mapM toPayload (Bucket.files bucket)) buckets
  = Returned payloads ->
  readablePayloads buckets = payloads.
Proof.
  revert payloads. induction buckets as [|bucket rest IH]; intros payloads H.
  - simpl in H. unfold mret, Outcome_ret in H. by simplify_eq.
  - simpl in H. apply Outcome_bind_Returned in H as (payload & Hpayload & H).
    apply Outcome_bind_Returned in H as (others & Hothers & H).
    unfold mret, Outcome_ret in H. simplify_eq.
    rewrite readablePayloads_cons. unfold readablePayloads at 1. simpl.
    rewrite Hpayload. simpl. f_equal. by apply IH.
Qed.


Lemma mapM_Returned_Forall2 {A B} (f : A -> Outcome B) (l : list A) : forall rs,
  mapM f l = Returned rs -> Forall2 (fun x r => f x = Returned r) l rs.
Proof.
  induction l as [|x l IH]; intros rs H; simpl in H.
  - unfold mret, Outcome_ret in H. simplify_eq. constructor.
  - apply Outcome_bind_Returned in H as (r & Hr & H).
    apply Outcome_bind_Returned in H as (rs' & Hrs & H).
    unfold mret, Outcome_ret in H. simplify_eq. constructor; [done | by apply IH].
Qed.

Lemma toPayload_Returned file entry :
  toPayload file = Returned entry ->
  exists contents,
    readFile (UploadableFile.absolutePath file) = Returned contents
    /\ entry = UploadFileGroupPayload.mk (UploadableFile.hash file)
                 (Encoding.base64 contents) (UploadableFile.mime file) true
    /\ Decoding.unbase64 (UploadFileGroupPayload.value entry) = Some contents.
Proof.
  unfold toPayload. intros H.
  apply Outcome_bind_Returned in H as (contents & Hread & H).
  unfold mret, Outcome_ret in H. simplify_eq. exists contents. simpl.
  split; [done|]. split; [done|]. apply EncodingProperties.base64_round_trip.
Qed.

(** X19. A run of [upload] that returns has sent one upload request for each
    bucket that is not empty (listed in array order, as [Promise.all] is
    taken here), four other requests, and so at most four more requests than
    there are scanned files whose fingerprint the check-missing answer of
    the run lists.  The payload of a
    bucket has one entry per file, in the bucket's order: the key is the
    file's fingerprint, the content type its MIME type, and the value the
    base64 text of the bytes read at its path, from which those bytes can be
    decoded. *)
Theorem one_upload_request_per_bucket
    (cfToken directory accountId projectName : string) (gitData : GitData)
    (s s' : State) (d : Deployment) :
  upload cfToken directory accountId projectName gitData s = (Returned d, s') ->
  exists files uploadsJwt missingHashes payloads,
    findUploadableFiles directory = Returned files
    /\ answered cfToken accountId projectName files (remote s) uploadsJwt
         missingHashes
    /\ sent s' = sent s ++ requestsOfRun cfToken directory accountId projectName
                             gitData files uploadsJwt payloads
    /\ Forall2
         (fun bucket payload =>
            Forall2
              (fun file entry =>
                 exists contents,
                   readFile (UploadableFile.absolutePath file) = Returned contents
                   /\ entry = UploadFileGroupPayload.mk (UploadableFile.hash file)
                                (Encoding.base64 contents) (UploadableFile.mime file)
                                true
                   /\ Decoding.unbase64 (UploadFileGroupPayload.value entry)
                      = Some contents)
              (Bucket.files bucket) payload)
         (List.filter nonEmpty
            (Packer.uploadBuckets (filesToUpload files missingHashes)))
         payloads
    /\ length (requestsOfRun cfToken directory accountId projectName gitData files
                 uploadsJwt payloads) = (4 + length payloads)%nat
    /\ (length payloads <= length (List.filter (isMissing missingHashes) files))%nat.
Proof.
  intros Hrun.
  apply upload_Returned in Hrun
    as (files & jwt & missing & payloads & Hscan & Hanswered & Hpay & Hsent).
  exists files, jwt, missing, payloads.
  apply mapM_Returned_Forall2 in Hpay.
  split; [done|]. split; [done|]. split; [done|]. split; [|split].
  - eapply Forall2_impl; [exact Hpay|]. intros bucket payload Hbucket. simpl in Hbucket.
    apply mapM_Returned_Forall2 in Hbucket.
    eapply Forall2_impl; [exact Hbucket|]. intros file entry. apply toPayload_Returned.
  - unfold requestsOfRun. rewrite !length_app, length_map. simpl. lia.
  - rewrite <- (Forall2_length _ _ _ Hpay).
    etrans; [apply (PackerProperties.packer_bucket_count (filesToUpload files missing))|].
    unfold filesToUpload.
    by rewrite (Permutation_length (sortBySizeDescending_Permutation _)).
Qed.

Lemma filter_none {A} (p : A -> bool) (l : list A) :
  (forall x, x ∈ l -> p x = false) -> List.filter p l = [].
Proof.
  intros Hall. induction l as [|x l IH]; simpl; [done|].
  rewrite (Hall x) by (by left). apply IH. intros y Hy. apply Hall. by right.
Qed.

(** X20. When the remote store answers the check-missing request with no
    fingerprint of a scanned file, nothing is packed and no upload request
    is sent: after the upload-token and the check-missing request the run
    goes straight to upsert-hashes and create-deployment, whatever these
    two answer. *)
Theorem nothing_missing_nothing_uploaded
    (cfToken directory accountId projectName : string) (gitData : GitData)
    (s : State) (files : list UploadableFile.t)
    (tokenResponse checkResponse : Response.t) (world1 world2 : World)
    (tokenResult checkResult : JsValue) (uploadsJwt : string)
    (missingHashes : list string) :
  findUploadableFiles directory = Returned files ->
  fetch (requestFor "GET" (projectUrl accountId projectName +:+ "/upload-token")
           cfToken Undefined) (remote s)
  = (Returned tokenResponse, world1) ->
  Response.ok tokenResponse = true ->
  jsonResult tokenResponse = Returned tokenResult ->
  uploadsJwtOf tokenResult = Returned uploadsJwt ->
  fetch (requestFor "POST" "/pages/assets/check-missing" uploadsJwt
           (HashesObject (map UploadableFile.hash files))) world1
  = (Returned checkResponse, world2) ->
  Response.ok checkResponse = true ->
  jsonResult checkResponse = Returned checkResult ->
  missingHashesOf files checkResult = Returned missingHashes ->
  (forall file, file ∈ files -> UploadableFile.hash file ∉ missingHashes) ->
  exists outcome s' requests,
    upload cfToken directory accountId projectName gitData s = (outcome, s')
    /\ sent s' = sent s ++ requests
    /\ requests `prefix_of`
         requestsOfRun cfToken directory accountId projectName gitData files
           uploadsJwt []
    /\ transmittedKeys requests = []
    /\ (forall d, outcome = Returned d -> length requests = 4%nat).
Proof.
  intros Hscan Hfetch1 Hok1 Hresult1 Hjwt Hfetch2 Hok2 Hresult2 Hmissing Hnone.
  assert (filesToUpload files missingHashes = []) as Hempty.
  { unfold filesToUpload. rewrite filter_none; [done|].
    intros file Hin. unfold isMissing. apply bool_decide_eq_false. by apply Hnone. }
  unfold upload. rewrite M_bind_run. unfold await at 1. rewrite Hscan.
  rewrite M_bind_run.
  unfold cfApiRequest at 1. rewrite M_bind_run. unfold doFetch at 1.
  rewrite Hfetch1, Hok1. simpl. unfold await at 1. rewrite Hresult1.
  rewrite M_bind_run. unfold await at 1. rewrite Hjwt.
  rewrite M_bind_run.
  unfold cfApiRequest at 1. rewrite M_bind_run. unfold doFetch at 1. simpl.
  rewrite Hfetch2, Hok2. simpl. rewrite Hresult2.
  rewrite M_bind_run. cbv beta. rewrite Hmissing, Hempty. simpl.
  rewrite M_bind_run. unfold mret at 1, M_ret at 1.
  rewrite M_bind_run.
  match goal with
  | |- context [cfApiRequest ?m ?u ?t ?b ?st] =>
      destruct (cfApiRequest_sends m u t b st) as (o4 & w4 & ->)
  end.
  simpl. destruct o4 as [u|e].
  2:{ eexists (Thrown e), _, [_; _; _]. simpl. rewrite <- !app_assoc. simpl.
      split; [done|]. split; [done|]. split; [by eexists [_]|]. split; done. }
  match goal with
  | |- context [cfApiRequest ?m ?u ?t ?b ?st] =>
      destruct (cfApiRequest_sends m u t b st) as (o5 & w5 & ->)
  end.
  eexists o5, _, [_; _; _; _]. simpl. rewrite <- !app_assoc. simpl.
  split; [done|]. split; [done|]. split; [by eexists []|]. split; done.
Qed.

(** X21. A control file that can be read is attached: the form has exactly
    one field of its name, a file of that name whose contents are the text
    the bytes read spell in UTF-8, which need not be the bytes themselves;
    the five fixed fields come first, and the manifest is the first of
    them. *)
Theorem readable_control_file_is_attached (files : list UploadableFile.t)
    (gitData : GitData) (directory name : string) (contents : list byte) :
  name = "_redirects" \/ name = "_headers" ->
  readFile (join directory name) = Returned contents ->
  let formData := deploymentForm files gitData directory in
  (name, FormFile (utf8 contents) name) ∈ formData
  /\ occurrences name (map fst formData) = 1%nat
  /\ take 5 formData
     = [ ("manifest", FormJson (manifest files));
         ("branch", FormString (branch gitData));
         ("commit_hash", FormString (commit gitData));
         ("commit_message", FormString (commitMessage gitData));
         ("commit_dirty", FormString "false") ].
Proof.
  intros Hname Hread formData. unfold formData, deploymentForm, attachOptional.
  destruct Hname as [-> | ->]; rewrite Hread.
  - destruct (readFile (join directory "_headers")); simpl;
      (split; [|split; [reflexivity | reflexivity]]);
      do 5 right; by left.
  - destruct (readFile (join directory "_redirects")); simpl;
      (split; [|split; [reflexivity | reflexivity]]).
    + do 6 right. by left.
    + do 5 right. by left.
Qed.

End WithPlatform.

Lemma missing_result_stops_the_run_witness :
  upload (P := Sample.platform) "secret" "/site" "acct" "bare" Sample.gitData
    Sample.start
  = (Thrown TypeError,
     Sample.state []
       [requestFor (P := Sample.platform) "GET"
          "/accounts/acct/pages/projects/bare/upload-token" "secret" Undefined]).
Proof.
  apply (missing_result_stops_the_run (P := Sample.platform)
           "secret" "/site" "acct" "bare" Sample.gitData Sample.start
           Sample.scanned (Response.mk 200 "{}") ([] : list string) []).
  - exact UploadTheorems.sample_scan.
  - vm_compute. reflexivity.
  - simpl. lia.
  - reflexivity.
  - reflexivity.
Defined.

Lemma one_upload_request_per_bucket_witness :
  exists uploadsJwt payloads,
    sent Sample.finished
    = sent Sample.start
      ++ requestsOfRun (P := Sample.platform) "secret" "/site" "acct" "proj"
           Sample.gitData Sample.scanned uploadsJwt payloads
    /\ length (requestsOfRun (P := Sample.platform) "secret" "/site" "acct" "proj"
                 Sample.gitData Sample.scanned uploadsJwt payloads)
       = (4 + length payloads)%nat.
Proof.
  destruct (one_upload_request_per_bucket (P := Sample.platform)
              "secret" "/site" "acct" "proj" Sample.gitData
              Sample.start Sample.finished
              (JsObject [("id", JsString "deployment-1")]))
    as (files & jwt & missing & payloads & Hscan & _ & Hsent & _ & Hlen & _).
  - vm_compute. reflexivity.
  - rewrite UploadTheorems.sample_scan in Hscan. injection Hscan as <-.
    exists jwt, payloads. split; [exact Hsent | exact Hlen].
Defined.

Lemma nothing_missing_nothing_uploaded_witness :
  exists outcome s' requests,
    upload (P := Sample.platform) "secret" "/site" "acct" "proj" Sample.gitData
      Sample.finished = (outcome, s')
    /\ sent s' = sent Sample.finished ++ requests
    /\ transmittedKeys requests = [].
Proof.
  destruct (nothing_missing_nothing_uploaded (P := Sample.platform)
              "secret" "/site" "acct" "proj" Sample.gitData Sample.finished
              Sample.scanned (Response.mk 200 "jwt:token") (Response.mk 200 "hashes:")
              (remote Sample.finished) (remote Sample.finished)
              (JsObject [("jwt", JsString "token")]) (JsArray []) "token" [])
    as (outcome & s' & requests & Hrun & Hsent & _ & Hkeys & _).
  - exact UploadTheorems.sample_scan.
  - vm_compute. reflexivity.
  - reflexivity.
  - reflexivity.
  - reflexivity.
  - vm_compute. reflexivity.
  - reflexivity.
  - reflexivity.
  - reflexivity.
  - intros file _. apply not_elem_of_nil.
  - exists outcome, s', requests. split; [exact Hrun|]. split; [exact Hsent | exact Hkeys].
Defined.

Lemma readable_control_file_is_attached_witness :
  ("_headers", FormFile "/*" "_headers")
  ∈ deploymentForm (P := Sample.platform) Sample.scanned Sample.gitData "/site"
  /\ ("_headers", FormFile Sample.replacement "_headers")
     ∈ deploymentForm (P := Variants.garbled) [] Sample.gitData "/site".
Proof.
  split.
  - apply (readable_control_file_is_attached (P := Sample.platform) Sample.scanned
             Sample.gitData "/site" "_headers" (list_byte_of_string "/*")).
    + by right.
    + reflexivity.
  - apply (readable_control_file_is_attached (P := Variants.garbled) []
             Sample.gitData "/site" "_headers" [xff]).
    + by right.
    + reflexivity.
Defined.

End PipelineProperties.

(** ** [index.ts] *)

Module IndexProperties.
Import Index.

(** X22. The git data handed to [upload] is undefined (the run throws before
    any request) exactly when the payload lacks the part the event name
    promises: a [pull_request] event without pull request, a [push] event
    without head commit, a [release] event without release.  For a
    [pull_request] event the branch, commit and message are the pull
    request's head branch, head commit and title, not the context's. *)
Theorem git_data_of_event (context : Context) :
  (gitDataOf context = None
   <-> (eventName context = "pull_request" /\ pull_request (payload context) = None)
       \/ (eventName context = "push" /\ head_commit (payload context) = None)
       \/ (eventName context = "release" /\ release (payload context) = None))
  /\ (forall pr,
        eventName context = "pull_request" ->
        pull_request (payload context) = Some pr ->
        gitDataOf context
        = Some (Upload.mkGitData (head_ref pr) (head_sha pr) (title pr))).
Proof.
  unfold gitDataOf, refOf, shaOf, commitMessageOf, isEventType.
  destruct context as [event r c [pr hc rel]]. simpl.
  split.
  - destruct (String.eqb_spec event "pull_request") as [->|Hpr].
    { destruct pr; simpl; split; intros H; try done.
      - destruct H as [[_ H]|[[H _]|[H _]]]; done.
      - left. done. }
    destruct (String.eqb_spec event "release") as [->|Hrel].
    { simpl. destruct rel; simpl; split; intros H; try done.
      - destruct H as [[H _]|[[H _]|[_ H]]]; done.
      - right. right. done. }
    destruct (String.eqb_spec event "push") as [->|Hpush].
    { simpl. destruct hc; simpl; split; intros H; try done.
      - destruct H as [[H _]|[[_ H]|[H _]]]; done.
      - right. left. done. }
    simpl. split; intros H; [done|].
    destruct H as [[H _]|[[H _]|[H _]]]; done.
  - intros pr' -> ->. done.
Qed.

Lemma environment_append_inj_r (s t1 t2 : string) : s +:+ t1 = s +:+ t2 -> t1 = t2.
Proof. induction s as [|c s IH]; simpl; intros H; [done|]. injection H. auto. Qed.

(** X23. A deployment is a production deployment exactly when the branch is
    the project's production branch, and the environment name tells the two
    kinds apart: for one project, the production name differs from every
    preview name, and the preview names of different branches differ. *)
Theorem environment_name_identifies_target (project : Project)
    (projectName ref1 ref2 : string) (production1 production2 : bool) :
  (isProduction project ref1 = true <-> production_branch project = ref1)
  /\ (environmentString projectName ref1 production1
      = environmentString projectName ref2 production2 ->
      production1 = production2 /\ (production1 = false -> ref1 = ref2)).
Proof.
  split; [unfold isProduction; apply String.eqb_eq|].
  unfold environmentString. intros H.
  destruct production1, production2; apply environment_append_inj_r in H.
  - done.
  - discriminate.
  - discriminate.
  - split; [done|]. intros _.
    apply (environment_append_inj_r " (Preview - ") in H.
    by apply ScannerProperties.append_inj_l in H.
Qed.

Lemma prefix_append (s t : string) : String.prefix s (s +:+ t) = true.
Proof.
  induction s as [|c s IH]; simpl; [by destruct t|].
  destruct (ascii_dec c c); [done | congruence].
Qed.

Lemma includes_prefix (search text : string) :
  String.prefix search text = true -> includes search text = true.
Proof. intros H. destruct text; cbn [includes]; by rewrite H. Qed.

Lemma includes_skip (search before text : string) :
  includes search text = true -> includes search (before +:+ text) = true.
Proof.
  intros H. induction before as [|c before IH]; [done|].
  change (String c before +:+ text) with (String c (before +:+ text)).
  cbn [includes]. rewrite IH. apply orb_true_r.
Qed.

(** X24. Posting the link comment is idempotent: the body of the comment
    [run] posts contains the signature that [run] searches for, so once that
    comment, made by a bot, is among the comments listed for the pull
    request, an existing link comment is found and no second comment is
    posted. *)
Theorem link_comment_is_posted_once (context : Context)
    (earlier later : list Comment) (alias : option string) (ref : string) :
  let posted := mkComment (Some (commentBody alias ref)) "Bot" in
  isLinkComment ref posted = true
  /\ existingLinkComment (earlier ++ posted :: later) ref <> None
  /\ postsComment context (earlier ++ posted :: later) ref = false.
Proof.
  intros posted.
  assert (isLinkComment ref posted = true) as Hlink.
  { unfold isLinkComment, posted, commentBody. cbn [body userType].
    rewrite String.eqb_refl, andb_true_r.
    do 11 apply includes_skip. apply includes_prefix, prefix_append. }
  assert (existingLinkComment (earlier ++ posted :: later) ref <> None) as Hfound.
  { unfold existingLinkComment. intros Hnone.
    pose proof (find_none _ _ Hnone posted) as Hposted.
    rewrite Hlink in Hposted. discriminate Hposted.
    apply in_or_app. right. by left. }
  split; [done|]. split; [done|].
  unfold postsComment. destruct (existingLinkComment _ _); [|done].
  apply andb_false_r.
Qed.

End IndexProperties.
